(** * Intake correlation engine of sparq-burnin

    Shallow embedding of the two scripts [scripts/copy_filtered_files.py]
    (the one-shot "batch" variant) and [scripts/watchdog.py] (the polling
    loop).  Strings are lists of ASCII characters; the Python exceptions that
    the code can meet are an explicit error type; the file system is the four
    staging/archive directories, seen as lists of file names. *)

From Stdlib Require Import String Ascii List ZArith Bool Lia Permutation.
Import ListNotations.

Module Py.

(** ** Strings *)

Definition str := list ascii.
Definition lit (x : string) : str := list_ascii_of_string x.

Definition str_eqb (a b : str) : bool :=
  if list_eq_dec ascii_dec a b then true else false.

Definition is_digit (c : ascii) : bool :=
  (48 <=? nat_of_ascii c)%nat && (nat_of_ascii c <=? 57)%nat.

Definition is_nl (c : ascii) : bool := Ascii.eqb c "010"%char.

(** [str.isspace] and the regex class [\s], restricted to ASCII:
    \t \n \v \f \r, the separators \x1c-\x1f, and the space. *)
Definition is_space (c : ascii) : bool :=
  let n := nat_of_ascii c in
  ((9 <=? n) && (n <=? 13))%nat || ((28 <=? n) && (n <=? 32))%nat.

Fixpoint drop_while (p : ascii -> bool) (w : str) : str :=
  match w with
  | [] => []
  | c :: r => if p c then drop_while p r else w
  end.

(** [w.strip()] *)
Definition strip (w : str) : str :=
  rev (drop_while is_space (rev (drop_while is_space w))).

(** [w.endswith(suf)] *)
Definition endswith (suf w : str) : bool :=
  str_eqb (skipn (length w - length suf) w) suf.

(** [w.split(c)] *)
Fixpoint split_on (c : ascii) (w : str) : list str :=
  match w with
  | [] => [[]]
  | x :: r =>
      if Ascii.eqb x c then [] :: split_on c r
      else match split_on c r with
           | h :: t => (x :: h) :: t
           | [] => [[x]]
           end
  end.

Fixpoint index_of (c : ascii) (w : str) : option nat :=
  match w with
  | [] => None
  | x :: r => if Ascii.eqb x c then Some 0%nat else option_map S (index_of c r)
  end.

(** [w.rfind(c)]: the last index of [c], or -1. *)
Definition rfind (c : ascii) (w : str) : Z :=
  match index_of c (rev w) with
  | Some i => (Z.of_nat (length w) - 1 - Z.of_nat i)%Z
  | None => (-1)%Z
  end.

(** [w[i:j]] for 0 <= i <= j *)
Definition slice (i j : Z) (w : str) : str :=
  firstn (Z.to_nat j - Z.to_nat i) (skipn (Z.to_nat i) w).

(** [posixpath.splitext] (via [genericpath._splitext]). *)
Definition splitext (p : str) : str * str :=
  let sepIndex := rfind "/"%char p in
  let dotIndex := rfind "."%char p in
  if (sepIndex <? dotIndex)%Z then
    (* skip all leading dots of the file name *)
    if existsb (fun c => negb (Ascii.eqb c "."%char)) (slice (sepIndex + 1)%Z dotIndex p)
    then (firstn (Z.to_nat dotIndex) p, skipn (Z.to_nat dotIndex) p)
    else (p, [])
  else (p, []).

(** ** Exceptions *)

Inductive exn :=
| IndexError       (* list index out of range *)
| OverflowError    (* datetime arithmetic out of range *)
| OSError          (* open() fails *)
| StopIteration    (* next() on an exhausted reader *)
| CsvError.        (* the csv reader (or the decoder) fails on a row *)

Definition res (A : Type) := (exn + A)%type.
Definition ret {A} (a : A) : res A := inr a.
Definition raise {A} (e : exn) : res A := inl e.
Definition bind {A B} (m : res A) (f : A -> res B) : res B :=
  match m with inl e => inl e | inr a => f a end.
Notation "x <- m ;; k" := (bind m (fun x => k))
  (at level 61, m at next level, right associativity).

(** [l[i]] *)
Definition index {A} (l : list A) (i : nat) : res A :=
  match nth_error l i with Some x => ret x | None => raise IndexError end.

End Py.
Import Py.

(** ** Dates *)
Module DT.
Local Open Scope Z_scope.

(** A naive [datetime.datetime]. *)
Record datetime := mkdt {
  year : Z; month : Z; day : Z; hour : Z; minute : Z; second : Z }.

Definition is_leap (y : Z) : bool :=
  (y mod 4 =? 0) && (negb (y mod 100 =? 0) || (y mod 400 =? 0)).

Definition days_in_month (y m : Z) : Z :=
  if m =? 2 then (if is_leap y then 29 else 28)
  else if (m =? 4) || (m =? 6) || (m =? 9) || (m =? 11) then 30
  else 31.

(** The checks of the [datetime] constructor (MINYEAR = 1, MAXYEAR = 9999). *)
Definition valid_dt (t : datetime) : bool :=
  (1 <=? year t) && (year t <=? 9999) &&
  (1 <=? month t) && (month t <=? 12) &&
  (1 <=? day t) && (day t <=? days_in_month (year t) (month t)) &&
  (0 <=? hour t) && (hour t <=? 23) &&
  (0 <=? minute t) && (minute t <=? 59) &&
  (0 <=? second t) && (second t <=? 59).

Definition days_before_year (y : Z) : Z :=
  let y' := y - 1 in y' * 365 + y' / 4 - y' / 100 + y' / 400.

Definition days_before_month (y m : Z) : Z :=
  nth (Z.to_nat (m - 1)) [0; 31; 59; 90; 120; 151; 181; 212; 243; 273; 304; 334] 0
  + (if (2 <? m) && is_leap y then 1 else 0).

(** [t.toordinal()]: 0001-01-01 is day 1. *)
Definition toordinal (t : datetime) : Z :=
  days_before_year (year t) + days_before_month (year t) (month t) + day t.

(** Seconds since 0001-01-01 00:00:00 minus 86400.  On valid datetimes the
    order of keys is the field-by-field order Python compares naive
    datetimes with. *)
Definition dt_key (t : datetime) : Z :=
  toordinal t * 86400 + hour t * 3600 + minute t * 60 + second t.

Definition dt_lt (a b : datetime) : bool := dt_key a <? dt_key b.
Definition dt_le (a b : datetime) : bool := dt_key a <=? dt_key b.

(** The key of [t - datetime.timedelta(days=n)]; [OverflowError] when the
    result falls before year 1. *)
Definition minus_days (t : datetime) (n : Z) : res Z :=
  if toordinal t - n <? 1 then raise OverflowError else ret (dt_key t - n * 86400).

End DT.
Import DT.

(** ** Filename Codec *)
Module Codec.

(** *** The file-name regular expressions

    The four patterns of the two scripts all have the shape
    [^<lead>(.+)<tail>$] where [<tail>] has a fixed width.  [.] matches any
    character but a newline, and [$] matches at the end of the subject or
    just before a final newline. *)

Inductive cls := Dg | Lt (a : ascii).

Definition cls_ok (k : cls) (c : ascii) : bool :=
  match k with Dg => is_digit c | Lt a => Ascii.eqb a c end.

(** Match the reversed pattern against the reversed subject; return what is
    left of the subject (reversed). *)
Fixpoint rpat (p : list cls) (r : str) : option str :=
  match p with
  | [] => Some r
  | k :: p' =>
      match r with
      | [] => None
      | c :: r' => if cls_ok k c then rpat p' r' else None
      end
  end.

Definition strip_final_nl (w : str) : str :=
  match rev w with
  | c :: r => if is_nl c then rev r else w
  | [] => w
  end.

(** [re.match(r'^<lead>(.+)<tail>$', w)] succeeds. *)
Definition re_match (lead : str) (tail : list cls) (w : str) : bool :=
  match rpat (rev tail) (rev (strip_final_nl w)) with
  | None => false
  | Some rpre =>
      let pre := rev rpre in
      str_eqb (firstn (length lead) pre) lead
      && (length lead <? length pre)%nat
      && forallb (fun c => negb (is_nl c)) (skipn (length lead) pre)
  end.

Definition lits (x : string) : list cls := map Lt (lit x).
Definition d2 : list cls := [Dg; Dg].
(** [\d{4}-\d{2}-\d{2}] *)
Definition date_pat : list cls := [Dg; Dg; Dg; Dg] ++ lits "-" ++ d2 ++ lits "-" ++ d2.
(** [_\d{4}-\d{2}-\d{2}_\d{2}-\d{2}-\d{2}\.csv] *)
Definition tail_hms : list cls :=
  lits "_" ++ date_pat ++ lits "_" ++ d2 ++ lits "-" ++ d2 ++ lits "-" ++ d2 ++ lits ".csv".
(** [_\d{4}-\d{2}-\d{2}_\d{2}-\d{2}\.csv] *)
Definition tail_hm : list cls :=
  lits "_" ++ date_pat ++ lits "_" ++ d2 ++ lits "-" ++ d2 ++ lits ".csv".

Definition lead_results : str := [].
Definition lead_test : str := lit "inverter_".

(** *** [datetime.strptime]

    [_strptime] turns the format into a regular expression (each directive
    into its group, each run of white space into [\s+]), applies
    [re.match], refuses unconverted data, and builds the datetime. *)

Inductive rx :=
| REps
| RCls (p : ascii -> bool)
| RSeq (a b : rx)
| RAlt (a b : rx)               (* ordered alternation [a|b] *)
| RGrp (g : ascii) (a : rx)     (* named group [(?P<g>a)] *)
| RPlus (p : ascii -> bool).    (* greedy [p+] *)

Definition caps := list (ascii * str).

Section Matcher.
Context {X : Type}.

(** Backtracking matcher in continuation-passing style; the continuation
    gets the rest of the subject, the text consumed, and the groups. *)
Fixpoint plus_try (k : str -> str -> caps -> option X) (w : str) (cs : caps) (i : nat)
  : option X :=
  match i with
  | O => None
  | S j =>
      match k (skipn i w) (firstn i w) cs with
      | Some x => Some x
      | None => plus_try k w cs j
      end
  end.

Fixpoint span (p : ascii -> bool) (w : str) : nat :=
  match w with [] => O | c :: r => if p c then S (span p r) else O end.

Fixpoint rmatch (r : rx) (w : str) (cs : caps) (k : str -> str -> caps -> option X)
  : option X :=
  match r with
  | REps => k w [] cs
  | RCls p => match w with c :: w' => if p c then k w' [c] cs else None | [] => None end
  | RSeq a b =>
      rmatch a w cs (fun w1 m1 cs1 => rmatch b w1 cs1 (fun w2 m2 cs2 => k w2 (m1 ++ m2) cs2))
  | RAlt a b =>
      match rmatch a w cs k with Some x => Some x | None => rmatch b w cs k end
  | RGrp g a => rmatch a w cs (fun w1 m1 cs1 => k w1 m1 ((g, m1) :: cs1))
  | RPlus p => plus_try k w cs (span p w)
  end.

End Matcher.

Definition rng (lo hi : nat) : rx :=
  RCls (fun c => (lo <=? nat_of_ascii c)%nat && (nat_of_ascii c <=? hi)%nat).
Definition ch (a : ascii) : rx := RCls (Ascii.eqb a).
Definition dig : rx := rng 48 57.

(** The [_strptime.TimeRE] entries the two formats use. *)
(** [(?P<Y>\d\d\d\d)] *)
Definition rx_Y : rx := RGrp "Y" (RSeq dig (RSeq dig (RSeq dig dig))).
(** [(?P<m>1[0-2]|0[1-9]|[1-9])] *)
Definition rx_m : rx :=
  RGrp "m" (RAlt (RSeq (ch "1") (rng 48 50))
           (RAlt (RSeq (ch "0") (rng 49 57)) (rng 49 57))).
(** [(?P<d>3[0-1]|[1-2]\d|0[1-9]|[1-9]| [1-9])] *)
Definition rx_d : rx :=
  RGrp "d" (RAlt (RSeq (ch "3") (rng 48 49))
           (RAlt (RSeq (rng 49 50) dig)
           (RAlt (RSeq (ch "0") (rng 49 57))
           (RAlt (rng 49 57) (RSeq (ch " ") (rng 49 57)))))).
(** [(?P<H>2[0-3]|[0-1]\d|\d)] *)
Definition rx_H : rx :=
  RGrp "H" (RAlt (RSeq (ch "2") (rng 48 51)) (RAlt (RSeq (rng 48 49) dig) dig)).
(** [(?P<M>[0-5]\d|\d)] *)
Definition rx_M : rx := RGrp "M" (RAlt (RSeq (rng 48 53) dig) dig).
(** [(?P<S>6[0-1]|[0-5]\d|\d)] *)
Definition rx_S : rx :=
  RGrp "S" (RAlt (RSeq (ch "6") (rng 48 49)) (RAlt (RSeq (rng 48 53) dig) dig)).

(** Directives other than these do not occur in the scripts. *)
Definition directive (c : ascii) : rx :=
  if Ascii.eqb c "Y" then rx_Y else if Ascii.eqb c "m" then rx_m
  else if Ascii.eqb c "d" then rx_d else if Ascii.eqb c "H" then rx_H
  else if Ascii.eqb c "M" then rx_M else if Ascii.eqb c "S" then rx_S
  else RCls (fun _ => false).

Fixpoint fmt_rx_aux (in_ws : bool) (f : str) : list rx :=
  match f with
  | "%"%char :: c :: f' => directive c :: fmt_rx_aux false f'
  | c :: f' =>
      if is_space c then
        (if in_ws then fmt_rx_aux true f' else RPlus is_space :: fmt_rx_aux true f')
      else ch c :: fmt_rx_aux false f'
  | [] => []
  end.

Definition fmt_rx (f : str) : list rx := fmt_rx_aux false f.

Fixpoint rx_seq (l : list rx) : rx :=
  match l with [] => REps | r :: l' => RSeq r (rx_seq l') end.

Fixpoint digits_val (acc : Z) (w : str) : Z :=
  match w with
  | [] => acc
  | c :: r => digits_val (10 * acc + (Z.of_nat (nat_of_ascii c) - 48)) r
  end.

(** [int(w)] on what the groups can hold: digits, maybe after a space. *)
Definition py_int (w : str) : Z := digits_val 0 (drop_while is_space w).

Fixpoint lookup_cap (g : ascii) (cs : caps) : option str :=
  match cs with
  | [] => None
  | (g', w) :: cs' => if Ascii.eqb g g' then Some w else lookup_cap g cs'
  end.

Definition cap_int (g : ascii) (dflt : Z) (cs : caps) : Z :=
  match lookup_cap g cs with Some w => py_int w | None => dflt end.

(** [datetime.strptime(data, fmt)]; [None] is the [ValueError]. *)
Definition strptime (data fmt : str) : option datetime :=
  match rmatch (rx_seq (fmt_rx fmt)) data [] (fun rest _ cs => Some (rest, cs)) with
  | None => None                                   (* does not match format *)
  | Some (rest, cs) =>
      match rest with
      | _ :: _ => None                             (* unconverted data remains *)
      | [] =>
          let t := mkdt (cap_int "Y" 1900 cs) (cap_int "m" 1 cs) (cap_int "d" 1 cs)
                        (cap_int "H" 0 cs) (cap_int "M" 0 cs) (cap_int "S" 0 cs) in
          if valid_dt t then Some t else None
      end
  end.

Definition fmt_hms : str := lit "%Y-%m-%d %H-%M-%S".
Definition fmt_hm_s : str := lit "%Y-%m-%d %H-%M:%S".

(** *** The parsers

    The body shared by every branch: split the base name on [_], take the
    serial number at [i] and the date and time after it, and [strptime]
    the joined string (plus [extra]); [ValueError] gives [None]. *)
Definition parse_parts (i : nat) (extra fmt filename : str) : res (option (str * datetime)) :=
  let base := fst (splitext filename) in
  let parts := split_on "_"%char base in
  sn <- index parts i ;;
  date_str <- index parts (S i) ;;
  time_str <- index parts (S (S i)) ;;
  let dt_str := date_str ++ lit " " ++ time_str ++ extra in
  ret (match strptime dt_str fmt with Some T => Some (sn, T) | None => None end).

(** copy_filtered_files.py, [parse_results_file] *)
Definition parse_results_file_b (filename : str) : res (option (str * datetime)) :=
  if re_match lead_results tail_hms filename then parse_parts 0 [] fmt_hms filename
  else ret None.

(** copy_filtered_files.py, [parse_test_file] *)
Definition parse_test_file_b (filename : str) : res (option (str * datetime)) :=
  if re_match lead_test tail_hm filename then parse_parts 1 (lit ":00") fmt_hm_s filename
  else ret None.

(** watchdog.py, [parse_results_file]: with seconds first, then without. *)
Definition parse_results_file_w (filename : str) : res (option (str * datetime)) :=
  if re_match lead_results tail_hms filename then parse_parts 0 [] fmt_hms filename
  else if re_match lead_results tail_hm filename then parse_parts 0 (lit ":00") fmt_hm_s filename
  else ret None.

(** watchdog.py, [parse_test_file] *)
Definition parse_test_file_w (filename : str) : res (option (str * datetime)) :=
  if re_match lead_test tail_hms filename then parse_parts 1 [] fmt_hms filename
  else if re_match lead_test tail_hm filename then parse_parts 1 (lit ":00") fmt_hm_s filename
  else ret None.

End Codec.
Import Codec.

(** ** Attribute Sniffer: copy_filtered_files.py, [check_firmware_version] *)
Module Sniffer.

(** What [csv.reader] yields: a row of cells, or an error raised while
    producing the next row (decoding or csv error); nothing is read after
    such an error. *)
Inductive row_item := Row (cells : list str) | RowError.

(** The contents of a results file as the reader sees it; [None] when
    [open] fails. *)
Definition file_content := option (list row_item).

(** [for row in reader: if len(row) > 3: ... break] *)
Fixpoint scan_rows (excluded : str) (rows : list row_item) : res bool :=
  match rows with
  | [] => ret false
  | RowError :: _ => raise CsvError
  | Row row :: rest =>
      if (3 <? length row)%nat then
        let firmware_version := strip (nth 3 row []) in
        if str_eqb firmware_version excluded then ret true   (* Exclude this file *)
        else ret false                                      (* break *)
      else scan_rows excluded rest
  end.

(** The body of the [try] block. *)
Definition check_body (excluded : str) (content : file_content) : res bool :=
  match content with
  | None => raise OSError
  | Some items =>
      match items with
      | [] => raise StopIteration                  (* headers = next(reader) *)
      | RowError :: _ => raise CsvError
      | Row headers :: rest =>
          if (3 <? length headers)%nat then scan_rows excluded rest else ret false
      end
  end.

(** [except Exception: return False] *)
Definition check_firmware_version (excluded : str) (content : file_content) : bool :=
  match check_body excluded content with
  | inl _ => false
  | inr b => b
  end.

(** The exclusion attribute in the words of the spec: column 3 of the first
    data row, stripped; [None] when it cannot be read. *)
Definition first_row_attribute (content : file_content) : option str :=
  match content with
  | Some (Row _ :: Row row :: _) =>
      if (3 <? length row)%nat then Some (strip (nth 3 row [])) else None
  | _ => None
  end.

End Sniffer.
Import Sniffer.

(** ** Matcher, Intake Gate and the two main loops *)
Module Engine.

(** [config['settings']]: [CUTOFF_DATE] and [EXCLUDED_FIRMWARE]. *)
Record config := mkcfg { cutoff_date : datetime; excluded_firmware : str }.

(** The four local directories, by the file names they hold:
    to_process/tests, to_process/results, processed/tests,
    processed/results. *)
Record fs := mkfs {
  tp_tests : list str; tp_results : list str;
  pr_tests : list str; pr_results : list str }.

(** [shutil.copy2] into to_process/tests or to_process/results. *)
Inductive op := CopyTest (name : str) | CopyResult (name : str).

(** What happened to one results file. *)
Inductive decision :=
| NotCsv | AlreadyExists | NotParsed | SkippedDate | SkippedFirmware
| NoMatch | OutOfWindow (test_file : str)
| StagedBoth (test_file : str) | StagedResultOnly (test_file : str).

(** [os.path.exists(os.path.join(dir, name))] *)
Definition path_exists (dir : list str) (name : str) : bool :=
  existsb (str_eqb name) dir.

Definition add_name (name : str) (dir : list str) : list str :=
  if path_exists dir name then dir else name :: dir.

Definition apply_op (f : fs) (o : op) : fs :=
  match o with
  | CopyTest n => mkfs (add_name n (tp_tests f)) (tp_results f) (pr_tests f) (pr_results f)
  | CopyResult n => mkfs (tp_tests f) (add_name n (tp_results f)) (pr_tests f) (pr_results f)
  end.

Definition apply_ops (f : fs) (ops : list op) : fs := fold_left apply_op ops f.

Definition result_known (f : fs) (file : str) : bool :=
  path_exists (pr_results f) file || path_exists (tp_results f) file.

Definition test_known (f : fs) (test_file : str) : bool :=
  path_exists (tp_tests f) test_file || path_exists (pr_tests f) test_file.

(** The candidate loops.  Batch: [.csv] names only, [test_info[1] < T]. *)
Fixpoint candidates_b (sn : str) (T : datetime) (listing : list str)
  : res (list (str * datetime)) :=
  match listing with
  | [] => ret []
  | test_file :: rest =>
      if negb (endswith (lit ".csv") test_file) then candidates_b sn T rest
      else
        test_info <- parse_test_file_b test_file ;;
        cands <- candidates_b sn T rest ;;
        ret (match test_info with
             | Some (sn', S_) =>
                 if str_eqb sn' sn && dt_lt S_ T then (test_file, S_) :: cands else cands
             | None => cands
             end)
  end.

(** Polling loop: every name, [test_info[1] <= T]. *)
Fixpoint candidates_w (sn : str) (T : datetime) (listing : list str)
  : res (list (str * datetime)) :=
  match listing with
  | [] => ret []
  | test_file :: rest =>
      test_info <- parse_test_file_w test_file ;;
      cands <- candidates_w sn T rest ;;
      ret (match test_info with
           | Some (sn', S_) =>
               if str_eqb sn' sn && dt_le S_ T then (test_file, S_) :: cands else cands
           | None => cands                   (* parse_test_file failed: logged *)
           end)
  end.

(** [max(test_candidates, key=lambda x: x[1])]: the first maximal one. *)
Definition py_max (l : list (str * datetime)) : option (str * datetime) :=
  match l with
  | [] => None
  | x :: r =>
      Some (fold_left (fun best y => if (dt_key (snd best) <? dt_key (snd y))%Z then y else best) r x)
  end.

Inductive selection := NoCandidate | TooOld (t : str) | Selected (t : str).

(** [if test_candidates: test_file, S = max(...); if S >= three_days_before_T] *)
Definition select (cands : list (str * datetime)) (three_days_before_T : Z) : selection :=
  match py_max cands with
  | None => NoCandidate
  | Some (test_file, S_) =>
      if (three_days_before_T <=? dt_key S_)%Z then Selected test_file else TooOld test_file
  end.

(** The Correlation Matcher of each variant. *)
Definition match_b (sn : str) (T : datetime) (listing : list str) : res selection :=
  three_days_before_T <- minus_days T 3 ;;
  cands <- candidates_b sn T listing ;;
  ret (select cands three_days_before_T).

Definition match_w (sn : str) (T : datetime) (listing : list str) : res selection :=
  three_days_before_T <- minus_days T 3 ;;
  cands <- candidates_w sn T listing ;;
  ret (select cands three_days_before_T).

(** The copy step after a match (the same code in both scripts).  The
    [shutil.copy2] calls are modelled as succeeding: the ops list the copies
    made, and a copy that raises (disk full, permissions, a file removed
    meanwhile) is outside this model. *)
Definition stage (f : fs) (file test_file : str) : decision * list op :=
  if test_known f test_file then (StagedResultOnly test_file, [CopyResult file])
  else (StagedBoth test_file, [CopyTest test_file; CopyResult file]).

Definition after_match (f : fs) (file : str) (s : selection) : decision * list op :=
  match s with
  | NoCandidate => (NoMatch, [])
  | TooOld t => (OutOfWindow t, [])
  | Selected t => stage f file t
  end.

(** copy_filtered_files.py, body of the loop of [main] after the [.csv]
    filter.  [listing] is the result of [os.listdir(data_dir)], taken as
    succeeding; with [stage], the model covers the runs where neither
    [os.listdir] nor [shutil.copy2] raises. *)
Definition admit_b (cfg : config) (f : fs) (file : str) (content : file_content)
    (listing : list str) : res (decision * list op) :=
  if result_known f file then ret (AlreadyExists, [])
  else
    results_info <- parse_results_file_b file ;;
    match results_info with
    | None => ret (NotParsed, [])
    | Some (sn, T) =>
        if dt_le T (cutoff_date cfg) then ret (SkippedDate, [])
        else if check_firmware_version (excluded_firmware cfg) content
        then ret (SkippedFirmware, [])
        else s <- match_b sn T listing ;; ret (after_match f file s)
    end.

(** watchdog.py, body of the loop over [results_files].  As for [admit_b],
    [listing] is a successful [os.listdir(data_dir)] and the copies of
    [stage] succeed. *)
Definition admit_w (f : fs) (file : str) (listing : list str) : res (decision * list op) :=
  if result_known f file then ret (AlreadyExists, [])
  else
    results_info <- parse_results_file_w file ;;
    match results_info with
    | None => ret (NotParsed, [])
    | Some (sn, T) => s <- match_w sn T listing ;; ret (after_match f file s)
    end.

Definition process_b (cfg : config) (listing : list str) (f : fs) (item : str * file_content)
  : res (decision * list op) :=
  let (file, content) := item in
  if negb (endswith (lit ".csv") file) then ret (NotCsv, [])
  else admit_b cfg f file content listing.

(** Run a loop body over the listed files, threading the file system; an
    exception stops the loop, the copies made so far stay. *)
Fixpoint run_items {I} (step : fs -> I -> res (decision * list op)) (f : fs) (items : list I)
  : fs * list op * option exn :=
  match items with
  | [] => (f, [], None)
  | it :: rest =>
      match step f it with
      | inl e => (f, [], Some e)
      | inr (_, ops) =>
          let '(f', ops', e) := run_items step (apply_ops f ops) rest in
          (f', ops ++ ops', e)
      end
  end.

(** copy_filtered_files.py, [main] (the directories exist). *)
Definition main_b (cfg : config) (f : fs) (results : list (str * file_content))
    (listing : list str) : fs * list op * option exn :=
  run_items (process_b cfg listing) f results.

(** One entry of [source_directories] as seen in one cycle: the listings of
    its results and data directories, [None] when the directory is missing. *)
Definition source := (option (list str) * option (list str))%type.

(** watchdog.py, one cycle of [main]: an exception ends the cycle. *)
Fixpoint cycle_w (f : fs) (sources : list source) : fs * list op * option exn :=
  match sources with
  | [] => (f, [], None)
  | (Some results_files, Some data) :: rest =>
      let '(f1, ops1, e1) := run_items (fun f' file => admit_w f' file data) f results_files in
      match e1 with
      | Some e => (f1, ops1, Some e)
      | None => let '(f2, ops2, e2) := cycle_w f1 rest in (f2, ops1 ++ ops2, e2)
      end
  | _ :: rest => cycle_w f rest            (* missing directory: skip the source *)
  end.

(** watchdog.py, the [while True] loop over successive cycles.  The
    [run_cleanup] and [run_ingestion] started between cycles ([npm run
    clean], [npm run ingest], outside these scripts) are left out: the file
    system passed to the next cycle is the one the copies leave, whereas the
    real scripts may move or delete files of to_process/ and processed/. *)
Fixpoint run_w (f : fs) (cycles : list (list source)) : fs * list op :=
  match cycles with
  | [] => (f, [])
  | c :: cs =>
      let '(f1, ops1, _) := cycle_w f c in
      let '(f2, ops2) := run_w f1 cs in (f2, ops1 ++ ops2)
  end.

(** How many times the ops copy [t] into to_process/tests. *)
Definition copies_of_test (t : str) (ops : list op) : nat :=
  length (filter (fun o => match o with CopyTest n => str_eqb n t | CopyResult _ => false end) ops).

(** The ops stage nothing. *)
Definition never_staged (r : res (decision * list op)) : Prop :=
  forall d ops, r = inr (d, ops) -> ops = [].

End Engine.
Import Engine.

(** ** Name builders and concrete inputs

    The file-name formats of the spec (section 6), from a device id and a
    datetime, and the inputs of the scenarios the claims name. *)
Module Names.

Definition digit (n : Z) : ascii := ascii_of_nat (48 + Z.to_nat n).
Definition two (n : Z) : str := [digit (n / 10); digit (n mod 10)].
Definition four (n : Z) : str :=
  [digit (n / 1000 mod 10); digit (n / 100 mod 10); digit (n / 10 mod 10); digit (n mod 10)].

Definition date_field (t : datetime) : str :=
  four (year t) ++ lit "-" ++ two (month t) ++ lit "-" ++ two (day t).
Definition hms_field (t : datetime) : str :=
  two (hour t) ++ lit "-" ++ two (minute t) ++ lit "-" ++ two (second t).
Definition hm_field (t : datetime) : str :=
  two (hour t) ++ lit "-" ++ two (minute t).

(** [<DeviceId>_<YYYY-MM-DD>_<HH-MM-SS>.csv] and [<DeviceId>_<YYYY-MM-DD>_<HH-MM>.csv] *)
Definition result_name_hms (sn : str) (t : datetime) : str :=
  sn ++ lit "_" ++ date_field t ++ lit "_" ++ hms_field t ++ lit ".csv".
Definition result_name_hm (sn : str) (t : datetime) : str :=
  sn ++ lit "_" ++ date_field t ++ lit "_" ++ hm_field t ++ lit ".csv".
(** [inverter_<DeviceId>_...] *)
Definition test_name_hms (sn : str) (t : datetime) : str := lead_test ++ result_name_hms sn t.
Definition test_name_hm (sn : str) (t : datetime) : str := lead_test ++ result_name_hm sn t.

Definition with_second (t : datetime) (s : Z) : datetime :=
  mkdt (year t) (month t) (day t) (hour t) (minute t) s.

(** A device id that can stand in a file name of the listings and that the
    [split('_')] of the parsers keeps whole. *)
Definition good_sn (sn : str) : bool :=
  negb (Nat.eqb (length sn) 0)
  && forallb (fun c => negb (Ascii.eqb c "_"%char || Ascii.eqb c "/"%char || is_nl c)) sn.

Definition empty_fs : fs := mkfs [] [] [] [].

Definition dev1 : str := lit "DEV1".
Definition T0 : datetime := mkdt 2025 7 20 10 0 0.
Definition T_1h : datetime := mkdt 2025 7 20 9 0 0.
Definition T_2d : datetime := mkdt 2025 7 18 10 0 0.
Definition T_4d : datetime := mkdt 2025 7 16 10 0 0.

Definition result0 : str := result_name_hms dev1 T0.       (* DEV1_2025-07-20_10-00-00.csv *)
Definition sess_1h : str := test_name_hm dev1 T_1h.       (* inverter_DEV1_2025-07-20_09-00.csv *)
Definition sess_2d : str := test_name_hm dev1 T_2d.
Definition sess_4d : str := test_name_hm dev1 T_4d.

Definition debug_fw : str := lit "9.9.9-debug".
Definition cfg0 : config := mkcfg (mkdt 2025 7 1 0 0 0) debug_fw.

Definition header4 : list str := [lit "Serial"; lit "Date"; lit "Result"; lit "Inverter Firmware"].
Definition header3 : list str := [lit "Serial"; lit "Date"; lit "Result"].
Definition content_ok : file_content :=
  Some [Row header4; Row [dev1; lit "2025-07-20"; lit "PASS"; lit "1.0.0"]].
Definition content_debug : file_content :=
  Some [Row header4; Row [dev1; lit "2025-07-20"; lit "PASS"; lit " 9.9.9-debug "]].
Definition content_debug_narrow_header : file_content :=
  Some [Row header3; Row [dev1; lit "2025-07-20"; lit "PASS"; debug_fw]].
(** A short first data row, then a row carrying the excluded version. *)
Definition content_short_first_row : file_content :=
  Some [Row header4; Row [dev1]; Row [dev1; lit "2025-07-20"; lit "PASS"; debug_fw]].

(** A session at the very time of [result0]. *)
Definition sess_eq : str := test_name_hm dev1 T0.
Definition cfg_late : config := mkcfg (mkdt 2025 12 31 0 0 0) debug_fw.

Definition fs_staged0 : fs := mkfs [sess_1h] [result0] [] [].

Definition fs_session_staged : fs := mkfs [sess_1h] [] [] [].
Definition result1 : str := result_name_hms dev1 (mkdt 2025 7 20 11 0 0).

End Names.
Import Names.

(** ** Counters, the cutoff date and what follows a cycle *)
Module Loops.

(** copy_filtered_files.py, [CUTOFF_DATE = datetime.strptime(cutoff_date_str,
    '%Y-%m-%d')] when the script loads; [None] is the [ValueError] that
    stops it. *)
Definition fmt_date : str := lit "%Y-%m-%d".
Definition CUTOFF_DATE (cutoff_date_str : str) : option datetime :=
  strptime cutoff_date_str fmt_date.

(** [run_items] with a counter that each decision updates. *)
Fixpoint run_items_tally {I T} (step : fs -> I -> res (decision * list op))
    (tally : T -> decision -> T) (f : fs) (items : list I) (acc : T)
  : fs * list op * T * option exn :=
  match items with
  | [] => (f, [], acc, None)
  | it :: rest =>
      match step f it with
      | inl e => (f, [], acc, Some e)
      | inr (d, ops) =>
          let '(f', ops', acc', e) := run_items_tally step tally (apply_ops f ops) rest (tally acc d) in
          (f', ops ++ ops', acc', e)
      end
  end.

(** copy_filtered_files.py, the counters of [main]. *)
Record counters := mkcounters {
  files_copied : nat; files_skipped_date : nat;
  files_skipped_firmware : nat; files_already_exist : nat }.

Definition count_b (c : counters) (d : decision) : counters :=
  match d with
  | AlreadyExists =>
      mkcounters (files_copied c) (files_skipped_date c) (files_skipped_firmware c)
        (S (files_already_exist c))
  | SkippedDate =>
      mkcounters (files_copied c) (S (files_skipped_date c)) (files_skipped_firmware c)
        (files_already_exist c)
  | SkippedFirmware =>
      mkcounters (files_copied c) (files_skipped_date c) (S (files_skipped_firmware c))
        (files_already_exist c)
  | StagedBoth _ | StagedResultOnly _ =>
      mkcounters (S (files_copied c)) (files_skipped_date c) (files_skipped_firmware c)
        (files_already_exist c)
  | NotCsv | NotParsed | NoMatch | OutOfWindow _ => c
  end.

(** The final summary of [main]: "Total files checked" and the counters.
    [None] when the loop raised: the script ends before the summary. *)
Definition main_b_summary (cfg : config) (f : fs) (results : list (str * file_content))
    (listing : list str) : option (nat * counters) :=
  let '(_, _, c, e) :=
    run_items_tally (process_b cfg listing) count_b f results (mkcounters 0 0 0 0) in
  match e with
  | Some _ => None
  | None => Some (length (filter (fun it => endswith (lit ".csv") (fst it)) results), c)
  end.

(** watchdog.py, [files_copied += 1] after each copy. *)
Definition count_w (files_copied : nat) (d : decision) : nat :=
  match d with
  | StagedBoth _ | StagedResultOnly _ => S files_copied
  | _ => files_copied
  end.

(** watchdog.py, one cycle of [main] with its [files_copied] counter. *)
Fixpoint cycle_w_count (f : fs) (sources : list source) (files_copied : nat)
  : fs * list op * nat * option exn :=
  match sources with
  | [] => (f, [], files_copied, None)
  | (Some results_files, Some data) :: rest =>
      let '(f1, ops1, n1, e1) :=
        run_items_tally (fun f' file => admit_w f' file data) count_w f results_files files_copied in
      match e1 with
      | Some e => (f1, ops1, n1, Some e)
      | None => let '(f2, ops2, n2, e2) := cycle_w_count f1 rest n1 in (f2, ops1 ++ ops2, n2, e2)
      end
  | _ :: rest => cycle_w_count f rest files_copied
  end.

(** The subprocesses started after a cycle. *)
Inductive action := RunCleanup | RunIngestion.

(** One pass of the [while True] body: the cycle, then [run_cleanup()] and
    [run_ingestion()] when [files_copied > 0] (ingestion runs whatever the
    cleanup returns).  An exception jumps to the [except] clause, which
    logs and sleeps. *)
Definition watchdog_cycle (f : fs) (sources : list source) : fs * list op * list action :=
  let '(f1, ops, files_copied, e) := cycle_w_count f sources 0 in
  match e with
  | Some _ => (f1, ops, [])
  | None => (f1, ops, if (0 <? files_copied)%nat then [RunCleanup; RunIngestion] else [])
  end.

End Loops.
Import Loops.

(** * Proofs *)

(** ** Facts on names and the file system *)
Module FsFacts.

Lemma str_eqb_refl (a : str) : str_eqb a a = true.
Proof. unfold str_eqb; destruct (list_eq_dec ascii_dec a a); congruence. Qed.

Lemma str_eqb_eq (a b : str) : str_eqb a b = true <-> a = b.
Proof. unfold str_eqb; destruct (list_eq_dec ascii_dec a b); split; congruence. Qed.

Lemma path_exists_add_same (n : str) (d : list str) : path_exists (add_name n d) n = true.
Proof.
  unfold add_name; destruct (path_exists d n) eqn:E; [exact E|].
  simpl; rewrite str_eqb_refl; reflexivity.
Qed.

Lemma path_exists_add_mono (n x : str) (d : list str) :
  path_exists d x = true -> path_exists (add_name n d) x = true.
Proof.
  unfold add_name; destruct (path_exists d n); [auto|].
  intro H; simpl; rewrite H, orb_true_r; reflexivity.
Qed.

Lemma test_known_apply_op (f : fs) (o : op) (t : str) :
  test_known f t = true -> test_known (apply_op f o) t = true.
Proof.
  unfold test_known; destruct o as [n|n]; simpl; [|auto].
  intros H; apply orb_true_iff in H as [H|H];
    [rewrite (path_exists_add_mono n t _ H) | rewrite H, orb_true_r]; reflexivity.
Qed.

Lemma test_known_apply_ops (ops : list op) : forall (f : fs) (t : str),
  test_known f t = true -> test_known (apply_ops f ops) t = true.
Proof.
  induction ops as [|o ops IH]; intros f t H; [exact H|].
  apply IH, test_known_apply_op, H.
Qed.

Lemma result_known_apply_op (f : fs) (o : op) (x : str) :
  result_known f x = true -> result_known (apply_op f o) x = true.
Proof.
  unfold result_known; destruct o as [n|n]; simpl; [auto|].
  intros H; apply orb_true_iff in H as [H|H];
    [rewrite H | rewrite (path_exists_add_mono n x _ H), orb_true_r]; reflexivity.
Qed.

Lemma result_known_apply_ops (ops : list op) : forall (f : fs) (x : str),
  result_known f x = true -> result_known (apply_ops f ops) x = true.
Proof.
  induction ops as [|o ops IH]; intros f x H; [exact H|].
  apply IH, result_known_apply_op, H.
Qed.

Lemma result_known_after_copy (f : fs) (ops : list op) (file : str) :
  In (CopyResult file) ops -> result_known (apply_ops f ops) file = true.
Proof.
  revert f; induction ops as [|o ops IH]; intros f Hin; [destruct Hin|].
  destruct Hin as [->|Hin]; [|apply IH, Hin].
  change (result_known (apply_ops (apply_op f (CopyResult file)) ops) file = true).
  apply result_known_apply_ops; unfold result_known, apply_op; cbn [tp_results pr_results].
  rewrite path_exists_add_same, orb_true_r; reflexivity.
Qed.

(** The ops of one step of either loop. *)
Definition step_ops_shape (f : fs) (file : str) (ops : list op) : Prop :=
  ops = [] \/ ops = [CopyResult file] \/
  exists t, test_known f t = false /\ ops = [CopyTest t; CopyResult file].

Lemma after_match_shape (f : fs) (file : str) (s : selection) :
  step_ops_shape f file (snd (after_match f file s)).
Proof.
  unfold step_ops_shape; destruct s as [|t|t]; simpl; auto.
  unfold stage; destruct (test_known f t) eqn:E; simpl; eauto.
Qed.

Lemma admit_b_shape cfg f file content listing d ops :
  admit_b cfg f file content listing = inr (d, ops) -> step_ops_shape f file ops.
Proof.
  unfold admit_b; intro H.
  destruct (result_known f file); [injection H; intros; subst; left; reflexivity|].
  destruct (parse_results_file_b file) as [e|[[sn T]|]]; simpl in H; try discriminate;
    [|injection H; intros; subst; left; reflexivity].
  destruct (dt_le T (cutoff_date cfg)); [injection H; intros; subst; left; reflexivity|].
  destruct (check_firmware_version _ _); [injection H; intros; subst; left; reflexivity|].
  destruct (match_b sn T listing) as [e|s]; simpl in H; [discriminate|].
  injection H as H.
  pose proof (after_match_shape f file s) as Hs; rewrite H in Hs; exact Hs.
Qed.

Lemma admit_w_shape f file listing d ops :
  admit_w f file listing = inr (d, ops) -> step_ops_shape f file ops.
Proof.
  unfold admit_w; intro H.
  destruct (result_known f file); [injection H; intros; subst; left; reflexivity|].
  destruct (parse_results_file_w file) as [e|[[sn T]|]]; simpl in H; try discriminate;
    [|injection H; intros; subst; left; reflexivity].
  destruct (match_w sn T listing) as [e|s]; simpl in H; [discriminate|].
  injection H as H.
  pose proof (after_match_shape f file s) as Hs; rewrite H in Hs; exact Hs.
Qed.

Lemma shape_result_known f file ops :
  step_ops_shape f file ops -> ops <> [] -> result_known (apply_ops f ops) file = true.
Proof.
  intros [->|[->|[t [_ ->]]]] Hne; [congruence| |];
    apply result_known_after_copy; simpl; auto.
Qed.

(** The count of copies of [t] a step makes is bounded by whether [t] is
    already known, and a copy makes it known. *)
Lemma shape_copies f file ops t :
  step_ops_shape f file ops ->
  (copies_of_test t ops <= (if test_known f t then 0 else 1))%nat /\
  (copies_of_test t ops = 0 \/ test_known (apply_ops f ops) t = true)%nat.
Proof.
  intros [->|[->|[t' [Hk ->]]]]; unfold copies_of_test; simpl;
    try (split; [destruct (test_known f t); lia | left; reflexivity]).
  destruct (str_eqb t' t) eqn:E; simpl.
  - apply str_eqb_eq in E; subst t'; rewrite Hk; split; [lia|right].
    change (test_known (apply_ops (apply_op f (CopyTest t)) [CopyResult file]) t = true).
    apply test_known_apply_ops; unfold test_known, apply_op; cbn [tp_tests pr_tests].
    rewrite path_exists_add_same; reflexivity.
  - split; [destruct (test_known f t); lia | left; reflexivity].
Qed.

Lemma copies_app t l1 l2 : copies_of_test t (l1 ++ l2) = (copies_of_test t l1 + copies_of_test t l2)%nat.
Proof. unfold copies_of_test; rewrite filter_app, length_app; reflexivity. Qed.

Section RunItems.
Context {I : Type} (step : fs -> I -> res (decision * list op)).
Hypothesis step_shape :
  forall f it d ops, step f it = inr (d, ops) -> exists file, step_ops_shape f file ops.

Lemma run_items_known (items : list I) : forall f t,
  test_known f t = true -> test_known (fst (fst (run_items step f items))) t = true.
Proof.
  induction items as [|it rest IH]; intros f t H; simpl; [exact H|].
  destruct (step f it) as [e|[d ops]]; simpl; [exact H|].
  pose proof (IH (apply_ops f ops) t (test_known_apply_ops ops f t H)) as M.
  destruct (run_items step (apply_ops f ops) rest) as [[f' ops'] e]; exact M.
Qed.

Lemma run_items_copies (items : list I) : forall f t,
  (copies_of_test t (snd (fst (run_items step f items))) <= (if test_known f t then 0 else 1))%nat
  /\ (copies_of_test t (snd (fst (run_items step f items))) = 0
      \/ test_known (fst (fst (run_items step f items))) t = true).
Proof.
  induction items as [|it rest IH]; intros f t; simpl.
  - unfold copies_of_test; simpl; split; [lia | left; reflexivity].
  - destruct (step f it) as [e|[d ops]] eqn:Hs; simpl.
    + unfold copies_of_test; simpl; split; [lia | left; reflexivity].
    + destruct (step_shape _ _ _ _ Hs) as [file Hsh].
      destruct (shape_copies _ _ _ t Hsh) as [B1 K1].
      destruct (IH (apply_ops f ops) t) as [B2 K2].
      pose proof (run_items_known rest (apply_ops f ops) t) as M.
      destruct (run_items step (apply_ops f ops) rest) as [[f' ops'] e] eqn:Hr; simpl in *.
      rewrite copies_app.
      destruct (test_known f t) eqn:Ek.
      * rewrite (test_known_apply_ops ops f t Ek) in B2; split; [lia|].
        destruct K2 as [K2|K2]; [left; lia|right; exact K2].
      * destruct K1 as [K1|K1].
        -- rewrite K1; split; [destruct (test_known (apply_ops f ops) t); lia|].
           destruct K2 as [K2|K2]; [left; lia|right; exact K2].
        -- rewrite K1 in B2; split; [lia|].
           right; apply M, K1.
Qed.

End RunItems.

(** From [f] to [f'] with the ops [ops], the session [t] is copied at most
    once, never when already known, and stays known. *)
Definition bound (t : str) (f f' : fs) (ops : list op) : Prop :=
  (copies_of_test t ops <= (if test_known f t then 0 else 1))%nat
  /\ (copies_of_test t ops = 0 \/ test_known f' t = true)
  /\ (test_known f t = true -> test_known f' t = true).

Lemma bound_nil t f : bound t f f [].
Proof. unfold bound, copies_of_test; simpl; split; [lia|split; auto]. Qed.

Lemma bound_app t f f1 f2 ops1 ops2 :
  bound t f f1 ops1 -> bound t f1 f2 ops2 -> bound t f f2 (ops1 ++ ops2).
Proof.
  unfold bound; rewrite copies_app; intros [B1 [K1 M1]] [B2 [K2 M2]].
  destruct (test_known f t) eqn:E.
  - rewrite (M1 eq_refl) in B2; repeat split; [lia| |auto].
    destruct K2; [left; lia|right; auto].
  - destruct K1 as [K1|K1].
    + rewrite K1; repeat split; [destruct (test_known f1 t); lia| |discriminate].
      destruct K2; [left; lia|right; auto].
    + rewrite K1 in B2; repeat split; [lia| right; auto |discriminate].
Qed.

Lemma run_items_bound {I} (step : fs -> I -> res (decision * list op))
  (step_shape : forall f it d ops, step f it = inr (d, ops) -> exists file, step_ops_shape f file ops)
  items f t :
  bound t f (fst (fst (run_items step f items))) (snd (fst (run_items step f items))).
Proof.
  destruct (run_items_copies step step_shape items f t) as [B K].
  split; [exact B|split; [exact K|apply run_items_known; exact step_shape]].
Qed.

Lemma process_b_shape cfg listing f item d ops :
  process_b cfg listing f item = inr (d, ops) -> exists file, step_ops_shape f file ops.
Proof.
  destruct item as [file content]; unfold process_b.
  destruct (negb _); intro H.
  - injection H; intros; subst; exists file; left; reflexivity.
  - exists file; eapply admit_b_shape; exact H.
Qed.

Lemma admit_w_step_shape data f file d ops :
  admit_w f file data = inr (d, ops) -> exists file', step_ops_shape f file' ops.
Proof. intro H; exists file; eapply admit_w_shape; exact H. Qed.

Lemma cycle_w_bound (sources : list source) : forall f t,
  bound t f (fst (fst (cycle_w f sources))) (snd (fst (cycle_w f sources))).
Proof.
  induction sources as [|[[results|] [data|]] rest IH]; intros f t; simpl;
    try apply bound_nil; try apply IH.
  pose proof (run_items_bound (fun f' file => admit_w f' file data)
                (admit_w_step_shape data) results f t) as B1.
  destruct (run_items _ f results) as [[f1 ops1] e1]; simpl in B1.
  destruct e1 as [e|]; [exact B1|].
  specialize (IH f1 t).
  destruct (cycle_w f1 rest) as [[f2 ops2] e2]; simpl in *.
  eapply bound_app; eauto.
Qed.

Lemma run_w_bound (cycles : list (list source)) : forall f t,
  bound t f (fst (run_w f cycles)) (snd (run_w f cycles)).
Proof.
  induction cycles as [|c cs IH]; intros f t; simpl; [apply bound_nil|].
  pose proof (cycle_w_bound c f t) as B1.
  destruct (cycle_w f c) as [[f1 ops1] e1]; simpl in B1.
  specialize (IH f1 t).
  destruct (run_w f1 cs) as [f2 ops2]; simpl in *.
  eapply bound_app; eauto.
Qed.

End FsFacts.
Import FsFacts.

(** ** Intake Gate *)
Module GateFacts.

Lemma after_match_staged f file s d ops t :
  after_match f file s = (d, ops) -> (d = StagedBoth t \/ d = StagedResultOnly t) ->
  (d, ops) = stage f file t.
Proof.
  destruct s as [|t'|t']; simpl; intros H Hd;
    [injection H; intros; subst; destruct Hd; discriminate
    |injection H; intros; subst; destruct Hd; discriminate|].
  unfold stage in *; destruct (test_known f t') eqn:E; injection H; intros; subst;
    destruct Hd as [Hd|Hd]; (discriminate || (injection Hd; intros; subst; rewrite E; reflexivity)).
Qed.

Lemma admit_b_staged cfg f file content listing d ops t :
  admit_b cfg f file content listing = inr (d, ops) ->
  (d = StagedBoth t \/ d = StagedResultOnly t) -> (d, ops) = stage f file t.
Proof.
  unfold admit_b; intros H Hd.
  destruct (result_known f file);
    [injection H; intros; subst; destruct Hd; discriminate|].
  destruct (parse_results_file_b file) as [e|[[sn T]|]]; simpl in H; try discriminate;
    [|injection H; intros; subst; destruct Hd; discriminate].
  destruct (dt_le T (cutoff_date cfg));
    [injection H; intros; subst; destruct Hd; discriminate|].
  destruct (check_firmware_version _ _);
    [injection H; intros; subst; destruct Hd; discriminate|].
  destruct (match_b sn T listing) as [e|s]; simpl in H; [discriminate|].
  injection H as H; eapply after_match_staged; eauto.
Qed.

Lemma admit_w_staged f file listing d ops t :
  admit_w f file listing = inr (d, ops) ->
  (d = StagedBoth t \/ d = StagedResultOnly t) -> (d, ops) = stage f file t.
Proof.
  unfold admit_w; intros H Hd.
  destruct (result_known f file);
    [injection H; intros; subst; destruct Hd; discriminate|].
  destruct (parse_results_file_w file) as [e|[[sn T]|]]; simpl in H; try discriminate;
    [|injection H; intros; subst; destruct Hd; discriminate].
  destruct (match_w sn T listing) as [e|s]; simpl in H; [discriminate|].
  injection H as H; eapply after_match_staged; eauto.
Qed.

Lemma stage_known f file t :
  test_known f t = true -> stage f file t = (StagedResultOnly t, [CopyResult file]).
Proof. unfold stage; intros ->; reflexivity. Qed.

End GateFacts.
Import GateFacts.

(** ** Matcher and Sniffer *)
Module MatchFacts.

Lemma candidates_b_cons sn T tf rest :
  candidates_b sn T (tf :: rest) =
  if negb (endswith (lit ".csv") tf) then candidates_b sn T rest
  else
    test_info <- parse_test_file_b tf ;;
    cands <- candidates_b sn T rest ;;
    ret (match test_info with
         | Some (sn', S_) =>
             if str_eqb sn' sn && dt_lt S_ T then (tf, S_) :: cands else cands
         | None => cands
         end).
Proof. reflexivity. Qed.

Lemma candidates_w_cons sn T tf rest :
  candidates_w sn T (tf :: rest) =
    test_info <- parse_test_file_w tf ;;
    cands <- candidates_w sn T rest ;;
    ret (match test_info with
         | Some (sn', S_) =>
             if str_eqb sn' sn && dt_le S_ T then (tf, S_) :: cands else cands
         | None => cands
         end).
Proof. reflexivity. Qed.

Lemma candidates_b_sound sn T listing : forall cands t S_,
  candidates_b sn T listing = inr cands -> In (t, S_) cands -> dt_lt S_ T = true.
Proof.
  induction listing as [|tf rest IH]; intros cands t S_ H Hin.
  - injection H as <-; destruct Hin.
  - rewrite candidates_b_cons in H; destruct (negb (endswith (lit ".csv") tf)); [eapply IH; eauto|].
    destruct (parse_test_file_b tf) as [e|ti]; simpl in H; [discriminate|].
    destruct (candidates_b sn T rest) as [e|cs] eqn:Hr; simpl in H; [discriminate|].
    injection H as <-.
    destruct ti as [[sn' S']|]; [|eapply IH; eauto].
    destruct (str_eqb sn' sn && dt_lt S' T) eqn:E; [|eapply IH; eauto].
    destruct Hin as [Hin|Hin]; [|eapply IH; eauto].
    injection Hin; intros; subst; apply andb_true_iff in E; tauto.
Qed.

Lemma candidates_w_sound sn T listing : forall cands t S_,
  candidates_w sn T listing = inr cands -> In (t, S_) cands -> dt_le S_ T = true.
Proof.
  induction listing as [|tf rest IH]; intros cands t S_ H Hin.
  - injection H as <-; destruct Hin.
  - rewrite candidates_w_cons in H; destruct (parse_test_file_w tf) as [e|ti]; simpl in H; [discriminate|].
    destruct (candidates_w sn T rest) as [e|cs] eqn:Hr; simpl in H; [discriminate|].
    injection H as <-.
    destruct ti as [[sn' S']|]; [|eapply IH; eauto].
    destruct (str_eqb sn' sn && dt_le S' T) eqn:E; [|eapply IH; eauto].
    destruct Hin as [Hin|Hin]; [|eapply IH; eauto].
    injection Hin; intros; subst; apply andb_true_iff in E; tauto.
Qed.

Lemma candidates_b_complete sn T listing : forall cands t S_,
  candidates_b sn T listing = inr cands -> In t listing ->
  endswith (lit ".csv") t = true -> parse_test_file_b t = inr (Some (sn, S_)) ->
  dt_lt S_ T = true -> In (t, S_) cands.
Proof.
  induction listing as [|tf rest IH]; intros cands t S_ H Hin Hcsv Hp Hlt; [destruct Hin|].
  rewrite candidates_b_cons in H.
  destruct (negb (endswith (lit ".csv") tf)) eqn:Ecsv.
  - destruct Hin as [<-|Hin]; [rewrite Hcsv in Ecsv; discriminate|eapply IH; eauto].
  - destruct (parse_test_file_b tf) as [e|ti] eqn:Ep; simpl in H; [discriminate|].
    destruct (candidates_b sn T rest) as [e|cs] eqn:Hr; simpl in H; [discriminate|].
    injection H as <-.
    destruct Hin as [<-|Hin].
    + rewrite Hp in Ep; injection Ep as <-.
      rewrite str_eqb_refl, Hlt; left; reflexivity.
    + assert (In (t, S_) cs) by (eapply IH; eauto).
      destruct ti as [[sn' S']|]; [destruct (str_eqb sn' sn && dt_lt S' T)|]; simpl; auto.
Qed.

Lemma candidates_w_complete sn T listing : forall cands t S_,
  candidates_w sn T listing = inr cands -> In t listing ->
  parse_test_file_w t = inr (Some (sn, S_)) -> dt_le S_ T = true -> In (t, S_) cands.
Proof.
  induction listing as [|tf rest IH]; intros cands t S_ H Hin Hp Hle; [destruct Hin|].
  rewrite candidates_w_cons in H.
  destruct (parse_test_file_w tf) as [e|ti] eqn:Ep; simpl in H; [discriminate|].
  destruct (candidates_w sn T rest) as [e|cs] eqn:Hr; simpl in H; [discriminate|].
  injection H as <-.
  destruct Hin as [<-|Hin].
  - rewrite Hp in Ep; injection Ep as <-.
    rewrite str_eqb_refl, Hle; left; reflexivity.
  - assert (In (t, S_) cs) by (eapply IH; eauto).
    destruct ti as [[sn' S']|]; [destruct (str_eqb sn' sn && dt_le S' T)|]; simpl; auto.
Qed.

Lemma check_excluded_first_row excluded hdr row rest :
  (3 < length hdr)%nat -> (3 < length row)%nat -> strip (nth 3 row []) = excluded ->
  check_firmware_version excluded (Some (Row hdr :: Row row :: rest)) = true.
Proof.
  intros Hh Hr He.
  destruct hdr as [|h0 [|h1 [|h2 [|h3 hdr]]]]; simpl in Hh; try lia.
  destruct row as [|a [|b [|c [|d row]]]]; simpl in Hr; try lia.
  subst excluded; unfold check_firmware_version, check_body; cbn -[strip str_eqb].
  rewrite str_eqb_refl; reflexivity.
Qed.

Lemma check_narrow_header excluded hdr rest :
  (length hdr <= 3)%nat -> check_firmware_version excluded (Some (Row hdr :: rest)) = false.
Proof.
  intros Hh; unfold check_firmware_version, check_body.
  assert (E : (3 <? length hdr)%nat = false) by (apply Nat.ltb_ge; exact Hh).
  rewrite E; reflexivity.
Qed.

(** The cases where the sniffer fails open: it answers [false] whenever
    its body raises, and whenever no row has more than three cells. *)
Lemma sniffer_fail_open excluded content :
  (exists e, check_body excluded content = inl e) ->
  check_firmware_version excluded content = false.
Proof. intros [e He]; unfold check_firmware_version; rewrite He; reflexivity. Qed.

Lemma scan_short_rows excluded rows :
  Forall (fun it => match it with Row r => (length r <= 3)%nat | RowError => True end) rows ->
  match scan_rows excluded rows with inl _ => True | inr b => b = false end.
Proof.
  induction 1 as [|[r|] rows Hr _ IH]; simpl; auto.
  assert (E : (3 <? length r)%nat = false) by (apply Nat.ltb_ge; exact Hr).
  rewrite E; exact IH.
Qed.

(** Staging after a match never reports a firmware skip. *)
Lemma after_match_not_firmware f file s : fst (after_match f file s) <> SkippedFirmware.
Proof.
  destruct s as [|t|t]; simpl; try discriminate.
  unfold stage; destruct (test_known f t); simpl; discriminate.
Qed.

End MatchFacts.
Import MatchFacts.


Module CodecFacts.

(** *** Finite checks *)

Definition all_ascii : list ascii := map ascii_of_nat (seq 0 256).

Lemma all_ascii_complete c : In c all_ascii.
Proof.
  unfold all_ascii; rewrite <- (ascii_nat_embedding c).
  apply in_map, in_seq; pose proof (nat_ascii_bounded c); lia.
Qed.

Lemma forall_ascii (P : ascii -> bool) : forallb P all_ascii = true -> forall c, P c = true.
Proof. intros H c; rewrite forallb_forall in H; apply H, all_ascii_complete. Qed.

Fixpoint zseq (lo : Z) (n : nat) : list Z :=
  match n with O => [] | S k => lo :: zseq (lo + 1)%Z k end.

Lemma zseq_in n : forall lo m, (lo <= m < lo + Z.of_nat n)%Z -> In m (zseq lo n).
Proof.
  induction n as [|n IH]; intros lo m H; simpl; [lia|].
  destruct (Z.eq_dec lo m) as [->|Hne]; [left; reflexivity|right; apply IH; lia].
Qed.

Lemma zseq_check (P : Z -> bool) lo n :
  forallb P (zseq lo (Z.to_nat n)) = true -> forall m, (lo <= m < lo + n)%Z -> P m = true.
Proof.
  intros H m Hm; rewrite forallb_forall in H; apply H, zseq_in.
  rewrite Z2Nat.id; lia.
Qed.

Ltac enum_Z m lo n :=
  let H := fresh "Hin" in
  pose proof (zseq_in n lo m ltac:(lia)) as H; vm_compute in H;
  repeat destruct H as [<-|H]; try contradiction.

(** *** Digits *)

Definition digit_safe (c : ascii) : bool :=
  negb (Ascii.eqb c "_") && negb (Ascii.eqb c "/") && negb (Ascii.eqb c ".")
  && negb (is_nl c) && negb (is_space c).

Lemma digit_safe_ok c : is_digit c = true -> digit_safe c = true.
Proof.
  intro H.
  pose proof (forall_ascii (fun c => implb (is_digit c) (digit_safe c))
                ltac:(vm_compute; reflexivity) c) as E.
  cbv beta in E; rewrite H in E; exact E.
Qed.

Lemma digit_is_digit n : (0 <= n <= 9)%Z -> is_digit (digit n) = true.
Proof.
  intro H; apply (zseq_check (fun n => is_digit (digit n)) 0 10); [vm_compute; reflexivity|lia].
Qed.

Lemma digit_mod_is_digit n : is_digit (digit (n mod 10)) = true.
Proof. apply digit_is_digit; pose proof (Z.mod_pos_bound n 10); lia. Qed.

Lemma py_int_two n : (0 <= n <= 99)%Z -> py_int (two n) = n.
Proof.
  intro H; apply Z.eqb_eq.
  apply (zseq_check (fun n => py_int (two n) =? n)%Z 0 100); [vm_compute; reflexivity|lia].
Qed.

Lemma py_int_four n : (0 <= n <= 9999)%Z -> py_int (four n) = n.
Proof.
  intro H; apply Z.eqb_eq.
  apply (zseq_check (fun n => py_int (four n) =? n)%Z 0 10000); [vm_compute; reflexivity|lia].
Qed.

(** *** The [strptime] regular expression, one directive at a time *)

Section Fields.
Context {X : Type}.
Implicit Types (k : str -> str -> caps -> option X) (x : X).

Lemma rseq_intro a b w cs k x :
  rmatch a w cs (fun w1 m1 cs1 => rmatch b w1 cs1 (fun w2 m2 cs2 => k w2 (m1 ++ m2) cs2)) = Some x ->
  rmatch (RSeq a b) w cs k = Some x.
Proof. exact (fun H => H). Qed.

Lemma ch_ok c rest cs k x :
  k rest [c] cs = Some x -> rmatch (ch c) (c :: rest) cs k = Some x.
Proof. intro Hk; unfold ch; cbn [rmatch]; rewrite Ascii.eqb_refl; exact Hk. Qed.

Lemma ws_ok c rest cs k x :
  is_space c = true -> span is_space rest = O -> k rest [c] cs = Some x ->
  rmatch (RPlus is_space) (c :: rest) cs k = Some x.
Proof.
  intros Hc Hr Hk; cbn [rmatch span]; rewrite Hc, Hr; cbn [plus_try skipn firstn].
  rewrite Hk; reflexivity.
Qed.

Lemma rx_Y_ok y rest cs k x :
  k rest (four y) (("Y"%char, four y) :: cs) = Some x ->
  rmatch rx_Y (four y ++ rest) cs k = Some x.
Proof.
  intro Hk; unfold four in *; cbn [app].
  pose proof (digit_mod_is_digit (y / 1000)) as H1.
  pose proof (digit_mod_is_digit (y / 100)) as H2.
  pose proof (digit_mod_is_digit (y / 10)) as H3.
  pose proof (digit_mod_is_digit y) as H4.
  unfold is_digit in H1, H2, H3, H4.
  unfold rx_Y, dig, rng; cbn [rmatch].
  rewrite H1, H2, H3, H4; exact Hk.
Qed.

Lemma rx_m_ok m rest cs k x : (1 <= m <= 12)%Z ->
  k rest (two m) (("m"%char, two m) :: cs) = Some x ->
  rmatch rx_m (two m ++ rest) cs k = Some x.
Proof. intros Hm Hk; enum_Z m 1%Z 12%nat; cbv in Hk |- *; rewrite Hk; reflexivity. Qed.

Lemma rx_d_ok d rest cs k x : (1 <= d <= 31)%Z ->
  k rest (two d) (("d"%char, two d) :: cs) = Some x ->
  rmatch rx_d (two d ++ rest) cs k = Some x.
Proof. intros Hd Hk; enum_Z d 1%Z 31%nat; cbv in Hk |- *; rewrite Hk; reflexivity. Qed.

Lemma rx_H_ok h rest cs k x : (0 <= h <= 23)%Z ->
  k rest (two h) (("H"%char, two h) :: cs) = Some x ->
  rmatch rx_H (two h ++ rest) cs k = Some x.
Proof. intros Hh Hk; enum_Z h 0%Z 24%nat; cbv in Hk |- *; rewrite Hk; reflexivity. Qed.

Lemma rx_M_ok mi rest cs k x : (0 <= mi <= 59)%Z ->
  k rest (two mi) (("M"%char, two mi) :: cs) = Some x ->
  rmatch rx_M (two mi ++ rest) cs k = Some x.
Proof. intros Hm Hk; enum_Z mi 0%Z 60%nat; cbv in Hk |- *; rewrite Hk; reflexivity. Qed.

Lemma rx_S_ok s rest cs k x : (0 <= s <= 59)%Z ->
  k rest (two s) (("S"%char, two s) :: cs) = Some x ->
  rmatch rx_S (two s ++ rest) cs k = Some x.
Proof. intros Hs Hk; enum_Z s 0%Z 60%nat; cbv in Hk |- *; rewrite Hk; reflexivity. Qed.

End Fields.

Lemma fmt_rx_hms :
  fmt_rx fmt_hms = [rx_Y; ch "-"; rx_m; ch "-"; rx_d; RPlus is_space; rx_H; ch "-"; rx_M; ch "-"; rx_S].
Proof. reflexivity. Qed.

Lemma fmt_rx_hm_s :
  fmt_rx fmt_hm_s = [rx_Y; ch "-"; rx_m; ch "-"; rx_d; RPlus is_space; rx_H; ch "-"; rx_M; ch ":"; rx_S].
Proof. reflexivity. Qed.

Lemma span_two n rest : (0 <= n <= 99)%Z -> span is_space (two n ++ rest) = O.
Proof.
  intro Hn.
  assert (H : digit_safe (digit (n / 10)) = true).
  { apply digit_safe_ok, digit_is_digit.
    pose proof (Z.div_lt_upper_bound n 10 10 ltac:(lia) ltac:(lia)).
    pose proof (Z.div_pos n 10 ltac:(lia) ltac:(lia)); lia. }
  unfold two; cbn [app span].
  destruct (is_space (digit (n / 10))) eqn:E; [|reflexivity].
  enough (digit_safe (digit (n / 10)) = false) by congruence.
  unfold digit_safe; rewrite E, !andb_false_r; reflexivity.
Qed.

Lemma days_in_month_le y m : (days_in_month y m <= 31)%Z.
Proof. unfold days_in_month; destruct (m =? 2)%Z, (is_leap y); repeat destruct (_ || _); lia. Qed.

Lemma valid_dt_bounds t : valid_dt t = true ->
  (1 <= year t <= 9999 /\ 1 <= month t <= 12 /\ 1 <= day t <= 31 /\
   0 <= hour t <= 23 /\ 0 <= minute t <= 59 /\ 0 <= second t <= 59)%Z.
Proof.
  unfold valid_dt; intro H; rewrite !andb_true_iff, !Z.leb_le in H.
  pose proof (days_in_month_le (year t) (month t)); lia.
Qed.

Lemma valid_with_second0 t : valid_dt t = true -> valid_dt (with_second t 0) = true.
Proof.
  unfold valid_dt, with_second; cbn [year month day hour minute second].
  rewrite !andb_true_iff; intuition reflexivity.
Qed.

Ltac field_step :=
  lazymatch goal with
  | |- rmatch rx_Y _ _ _ = _ => apply rx_Y_ok
  | |- rmatch rx_m _ _ _ = _ => apply rx_m_ok; [lia|]
  | |- rmatch rx_d _ _ _ = _ => apply rx_d_ok; [lia|]
  | |- rmatch rx_H _ _ _ = _ => apply rx_H_ok; [lia|]
  | |- rmatch rx_M _ _ _ = _ => apply rx_M_ok; [lia|]
  | |- rmatch rx_S _ _ _ = _ => apply rx_S_ok; [lia|]
  | |- rmatch (ch _) _ _ _ = _ => apply ch_ok
  | |- rmatch (RPlus is_space) _ _ _ = _ => apply ws_ok; [reflexivity|apply span_two; lia|]
  end.

Ltac chain_fields :=
  repeat (lazymatch goal with |- rmatch (RSeq _ _) _ _ _ = _ => idtac end;
          apply rseq_intro; field_step; cbv beta);
  reflexivity.

Lemma rmatch_hms y m d h mi s :
  (0 <= y <= 9999 /\ 1 <= m <= 12 /\ 1 <= d <= 31 /\
   0 <= h <= 23 /\ 0 <= mi <= 59 /\ 0 <= s <= 59)%Z ->
  rmatch (rx_seq (fmt_rx fmt_hms))
    (four y ++ "-"%char :: two m ++ "-"%char :: two d ++ " "%char :: two h ++ "-"%char
     :: two mi ++ "-"%char :: two s ++ [])
    [] (fun rest _ cs => Some (rest, cs))
  = Some ([], [("S"%char, two s); ("M"%char, two mi); ("H"%char, two h);
               ("d"%char, two d); ("m"%char, two m); ("Y"%char, four y)]).
Proof. intro B; rewrite fmt_rx_hms; cbn [rx_seq]; chain_fields. Qed.

Lemma rmatch_hm_s y m d h mi :
  (0 <= y <= 9999 /\ 1 <= m <= 12 /\ 1 <= d <= 31 /\ 0 <= h <= 23 /\ 0 <= mi <= 59)%Z ->
  rmatch (rx_seq (fmt_rx fmt_hm_s))
    (four y ++ "-"%char :: two m ++ "-"%char :: two d ++ " "%char :: two h ++ "-"%char
     :: two mi ++ ":"%char :: two 0 ++ [])
    [] (fun rest _ cs => Some (rest, cs))
  = Some ([], [("S"%char, two 0); ("M"%char, two mi); ("H"%char, two h);
               ("d"%char, two d); ("m"%char, two m); ("Y"%char, four y)]).
Proof. intro B; rewrite fmt_rx_hm_s; cbn [rx_seq]; chain_fields. Qed.

Lemma strptime_hms t : valid_dt t = true ->
  strptime (date_field t ++ lit " " ++ hms_field t ++ []) fmt_hms = Some t.
Proof.
  intro Hv; pose proof (valid_dt_bounds t Hv) as B.
  destruct t as [y m d h mi s]; cbn [year month day hour minute second] in B.
  unfold strptime.
  change (date_field (mkdt y m d h mi s) ++ lit " " ++ hms_field (mkdt y m d h mi s) ++ [])
    with (four y ++ "-"%char :: two m ++ "-"%char :: two d ++ " "%char :: two h ++ "-"%char
          :: two mi ++ "-"%char :: two s ++ []).
  rewrite rmatch_hms by lia.
  cbv beta iota zeta.
  unfold cap_int; cbn [lookup_cap Ascii.eqb Bool.eqb].
  rewrite py_int_four, !py_int_two by lia.
  rewrite Hv; reflexivity.
Qed.

Lemma strptime_hm_s t : valid_dt t = true ->
  strptime (date_field t ++ lit " " ++ hm_field t ++ lit ":00") fmt_hm_s = Some (with_second t 0).
Proof.
  intro Hv; pose proof (valid_with_second0 t Hv) as Hv0; pose proof (valid_dt_bounds t Hv) as B.
  destruct t as [y m d h mi s]; cbn [year month day hour minute second] in B.
  unfold strptime.
  change (date_field (mkdt y m d h mi s) ++ lit " " ++ hm_field (mkdt y m d h mi s) ++ lit ":00")
    with (four y ++ "-"%char :: two m ++ "-"%char :: two d ++ " "%char :: two h ++ "-"%char
          :: two mi ++ ":"%char :: two 0 ++ []).
  rewrite rmatch_hm_s by lia.
  cbv beta iota zeta.
  unfold cap_int; cbn [lookup_cap Ascii.eqb Bool.eqb].
  rewrite py_int_four, !py_int_two by lia.
  unfold with_second in *; cbn [year month day hour minute] in *.
  rewrite Hv0; reflexivity.
Qed.

(** *** The file-name pattern *)

Definition okc (k : cls) (c : ascii) : Prop := cls_ok k c = true.

Lemma F2_lits x : Forall2 okc (lits x) (lit x).
Proof.
  unfold lits; induction (lit x) as [|a w IH]; constructor; [|exact IH].
  unfold okc; cbn [cls_ok]; apply Ascii.eqb_refl.
Qed.

Lemma F2_of_rpat p : forall w, rpat p w = Some [] -> Forall2 okc p w.
Proof.
  induction p as [|k p IH]; intros [|c w] H; cbn [rpat] in H; try discriminate.
  - constructor.
  - destruct (cls_ok k c) eqn:E; [|discriminate]; constructor; [exact E|apply IH, H].
Qed.

Lemma F2_two n : (0 <= n <= 99)%Z -> Forall2 okc d2 (two n).
Proof.
  intro Hn; apply F2_of_rpat.
  pose proof (zseq_check (fun n => match rpat d2 (two n) with Some [] => true | _ => false end)
                0 100 ltac:(vm_compute; reflexivity) n ltac:(lia)) as E.
  cbv beta in E; revert E.
  generalize (rpat d2 (two n)); intros [[|]|] H; cbn in H;
    first [reflexivity | discriminate H].
Qed.

Lemma F2_four n : Forall2 okc [Dg; Dg; Dg; Dg] (four n).
Proof. repeat constructor; apply digit_mod_is_digit. Qed.

Ltac f2 :=
  repeat lazymatch goal with
  | |- Forall2 okc (lits _) (lit _) => apply F2_lits
  | |- Forall2 okc d2 (two _) => apply F2_two; lia
  | |- Forall2 okc [Dg; Dg; Dg; Dg] (four _) => apply F2_four
  | |- Forall2 okc (_ ++ _) (_ ++ _) => apply Forall2_app
  end.

Lemma F2_date t : valid_dt t = true -> Forall2 okc date_pat (date_field t).
Proof.
  intro Hv; pose proof (valid_dt_bounds t Hv).
  unfold date_pat, date_field; f2.
Qed.

Lemma F2_hms t : valid_dt t = true ->
  Forall2 okc (d2 ++ lits "-" ++ d2 ++ lits "-" ++ d2) (hms_field t).
Proof. intro Hv; pose proof (valid_dt_bounds t Hv); unfold hms_field; f2. Qed.

Lemma F2_hm t : valid_dt t = true -> Forall2 okc (d2 ++ lits "-" ++ d2) (hm_field t).
Proof. intro Hv; pose proof (valid_dt_bounds t Hv); unfold hm_field; f2. Qed.

Lemma F2_tail_hms t : valid_dt t = true ->
  Forall2 okc tail_hms (lit "_" ++ date_field t ++ lit "_" ++ hms_field t ++ lit ".csv").
Proof.
  intro Hv; unfold tail_hms.
  change (d2 ++ lits "-" ++ d2 ++ lits "-" ++ d2 ++ lits ".csv")
    with ((d2 ++ lits "-" ++ d2 ++ lits "-" ++ d2) ++ lits ".csv").
  apply Forall2_app; [apply F2_lits|]; apply Forall2_app; [apply F2_date, Hv|].
  apply Forall2_app; [apply F2_lits|]; apply Forall2_app; [apply F2_hms, Hv|apply F2_lits].
Qed.

Lemma F2_tail_hm t : valid_dt t = true ->
  Forall2 okc tail_hm (lit "_" ++ date_field t ++ lit "_" ++ hm_field t ++ lit ".csv").
Proof.
  intro Hv; unfold tail_hm.
  change (d2 ++ lits "-" ++ d2 ++ lits ".csv") with ((d2 ++ lits "-" ++ d2) ++ lits ".csv").
  apply Forall2_app; [apply F2_lits|]; apply Forall2_app; [apply F2_date, Hv|].
  apply Forall2_app; [apply F2_lits|]; apply Forall2_app; [apply F2_hm, Hv|apply F2_lits].
Qed.

Lemma Forall2_rev' {A B} (R : A -> B -> Prop) l l' :
  Forall2 R l l' -> Forall2 R (rev l) (rev l').
Proof. induction 1; cbn [rev]; [constructor|apply Forall2_app; auto]. Qed.

Lemma rpat_app p w r : Forall2 okc p w -> rpat p (w ++ r) = Some r.
Proof. induction 1 as [|k c p w Hk _ IH]; cbn [rpat app]; [reflexivity|]. unfold okc in Hk; rewrite Hk; exact IH. Qed.

Lemma rpat_mismatch p1 k p2 w1 c r :
  Forall2 okc p1 w1 -> cls_ok k c = false -> rpat (p1 ++ k :: p2) (w1 ++ c :: r) = None.
Proof.
  intros H Hk; induction H as [|k' c' p w Hk' _ IH]; cbn [rpat app].
  - rewrite Hk; reflexivity.
  - unfold okc in Hk'; rewrite Hk'; exact IH.
Qed.

Lemma firstn_app_len {A} (a b : list A) : firstn (length a) (a ++ b) = a.
Proof. induction a as [|x a IH]; cbn; [reflexivity|now rewrite IH]. Qed.

Lemma skipn_app_len {A} (a b : list A) : skipn (length a) (a ++ b) = b.
Proof. induction a as [|x a IH]; cbn; [reflexivity|exact IH]. Qed.

Lemma strip_final_nl_snoc w c : is_nl c = false -> strip_final_nl (w ++ [c]) = w ++ [c].
Proof. intro H; unfold strip_final_nl; rewrite rev_app_distr; cbn [rev app]; rewrite H; reflexivity. Qed.

Lemma strip_csv w : strip_final_nl (w ++ lit ".csv") = w ++ lit ".csv".
Proof.
  change (lit ".csv") with (lit ".cs" ++ ["v"%char]); rewrite app_assoc.
  apply strip_final_nl_snoc; reflexivity.
Qed.

Lemma re_match_intro lead mid tail suf :
  Forall2 okc tail suf -> strip_final_nl (lead ++ mid ++ suf) = lead ++ mid ++ suf ->
  mid <> [] -> forallb (fun c => negb (is_nl c)) mid = true ->
  re_match lead tail (lead ++ mid ++ suf) = true.
Proof.
  intros Hf Hs Hm Hn; unfold re_match; rewrite Hs.
  rewrite app_assoc, rev_app_distr, (rpat_app _ _ _ (Forall2_rev' _ _ _ Hf)), rev_involutive.
  rewrite firstn_app_len, skipn_app_len, str_eqb_refl, Hn, length_app.
  replace (length lead <? length lead + length mid)%nat with true; [reflexivity|].
  symmetry; apply Nat.ltb_lt; destruct mid; [congruence|cbn [length]; lia].
Qed.

Lemma re_match_reject lead tail p1 k p2 X c Y :
  rev tail = p1 ++ k :: p2 -> Forall2 okc p1 (rev Y) -> cls_ok k c = false ->
  strip_final_nl (X ++ c :: Y) = X ++ c :: Y -> re_match lead tail (X ++ c :: Y) = false.
Proof.
  intros Ht Hf Hk Hs; unfold re_match; rewrite Hs, Ht.
  replace (rev (X ++ c :: Y)) with (rev Y ++ c :: rev X)
    by (rewrite rev_app_distr; cbn [rev]; rewrite <- app_assoc; reflexivity).
  rewrite rpat_mismatch; auto.
Qed.

(** *** [splitext] and [split('_')] *)

Definition no_char (a : ascii) (w : str) : bool := forallb (fun c => negb (Ascii.eqb c a)) w.

Lemma no_char_app a u v : no_char a (u ++ v) = no_char a u && no_char a v.
Proof. apply forallb_app. Qed.

Lemma no_char_rev a w : no_char a (rev w) = no_char a w.
Proof.
  unfold no_char; induction w as [|x w IH]; cbn [rev forallb]; [reflexivity|].
  rewrite forallb_app, IH; cbn [forallb]; rewrite andb_true_r, andb_comm; reflexivity.
Qed.

Lemma index_of_none a w : no_char a w = true -> index_of a w = None.
Proof.
  induction w as [|x w IH]; cbn; [reflexivity|].
  intro H; apply andb_prop in H as [H1 H2]; apply negb_true_iff in H1; rewrite H1, IH; auto.
Qed.

Lemma split_on_sep a u v : no_char a u = true -> split_on a (u ++ a :: v) = u :: split_on a v.
Proof.
  induction u as [|x u IH]; intro H; cbn [app split_on].
  - rewrite Ascii.eqb_refl; reflexivity.
  - cbn in H; apply andb_prop in H as [H1 H2]; apply negb_true_iff in H1; rewrite H1, IH; auto.
Qed.

Lemma split_on_one a u : no_char a u = true -> split_on a u = [u].
Proof.
  induction u as [|x u IH]; intro H; cbn [split_on]; [reflexivity|].
  cbn in H; apply andb_prop in H as [H1 H2]; apply negb_true_iff in H1; rewrite H1, IH; auto.
Qed.

Lemma splitext_csv B :
  no_char "/" B = true -> existsb (fun c => negb (Ascii.eqb c ".")) B = true ->
  splitext (B ++ lit ".csv") = (B, lit ".csv").
Proof.
  intros Hs Hd.
  assert (E1 : index_of "/"%char (rev (B ++ lit ".csv")) = None).
  { rewrite rev_app_distr; cbn.
    rewrite index_of_none; [reflexivity|]; rewrite no_char_rev; exact Hs. }
  assert (E2 : index_of "."%char (rev (B ++ lit ".csv")) = Some 3%nat)
    by (rewrite rev_app_distr; reflexivity).
  unfold splitext, rfind; rewrite E1, E2.
  assert (L : (Z.of_nat (length (B ++ lit ".csv")) - 1 - Z.of_nat 3 = Z.of_nat (length B))%Z)
    by (rewrite length_app; change (length (lit ".csv")) with 4%nat; lia).
  rewrite L.
  replace (-1 <? Z.of_nat (length B))%Z with true by (symmetry; apply Z.ltb_lt; lia).
  unfold slice; replace (-1 + 1)%Z with 0%Z by reflexivity.
  change (Z.to_nat 0) with O; rewrite Nat2Z.id, Nat.sub_0_r; cbn [skipn].
  rewrite firstn_app_len, skipn_app_len, Hd; reflexivity.
Qed.

Lemma F2_no_char a p w : Forall2 okc p w -> is_digit a = false ->
  forallb (fun k => match k with Dg => true | Lt b => negb (Ascii.eqb b a) end) p = true ->
  no_char a w = true.
Proof.
  unfold no_char; induction 1 as [|k c p w Hk _ IH]; cbn [forallb]; [reflexivity|].
  intros Ha Hp; apply andb_prop in Hp as [H1 H2]; rewrite IH by assumption; rewrite andb_true_r.
  unfold okc in Hk; destruct k as [|b]; cbn [cls_ok] in Hk.
  - destruct (Ascii.eqb c a) eqn:E; [|reflexivity].
    apply Ascii.eqb_eq in E; subst; congruence.
  - apply Ascii.eqb_eq in Hk; subst; exact H1.
Qed.

Lemma good_sn_facts sn : good_sn sn = true ->
  sn <> [] /\ no_char "_" sn = true /\ no_char "/" sn = true /\
  forallb (fun c => negb (is_nl c)) sn = true.
Proof.
  unfold good_sn, no_char; intro H; apply andb_prop in H as [H1 H2].
  split; [intros ->; discriminate|].
  rewrite forallb_forall in H2.
  repeat split; apply forallb_forall; intros x Hx; specialize (H2 x Hx);
    destruct (Ascii.eqb x "_"), (Ascii.eqb x "/"), (is_nl x); try discriminate; reflexivity.
Qed.

Lemma parse_parts_eq i extra fmt B parts sn D TM :
  no_char "/" B = true -> existsb (fun c => negb (Ascii.eqb c ".")) B = true ->
  split_on "_" B = parts -> nth_error parts i = Some sn ->
  nth_error parts (S i) = Some D -> nth_error parts (S (S i)) = Some TM ->
  parse_parts i extra fmt (B ++ lit ".csv")
  = ret (match strptime (D ++ lit " " ++ TM ++ extra) fmt with
         | Some T => Some (sn, T) | None => None end).
Proof.
  intros Hs Hd Hp H0 H1 H2; unfold parse_parts.
  rewrite splitext_csv by assumption; cbn [fst].
  rewrite Hp; unfold index; rewrite H0, H1, H2; reflexivity.
Qed.

(** A name [<lead><sn>_<D>_<TM>.csv] whose tail fits the pattern is matched
    and split back into [sn], [D] and [TM]. *)
Lemma roundtrip lead pl tail fmt extra sn D TM T :
  (forall X, split_on "_" (lead ++ X) = pl ++ split_on "_" X) ->
  no_char "/" lead = true -> good_sn sn = true ->
  no_char "_" D = true -> no_char "/" D = true -> no_char "_" TM = true -> no_char "/" TM = true ->
  Forall2 okc tail (lit "_" ++ D ++ lit "_" ++ TM ++ lit ".csv") ->
  strptime (D ++ lit " " ++ TM ++ extra) fmt = Some T ->
  re_match lead tail (lead ++ sn ++ lit "_" ++ D ++ lit "_" ++ TM ++ lit ".csv") = true /\
  parse_parts (length pl) extra fmt (lead ++ sn ++ lit "_" ++ D ++ lit "_" ++ TM ++ lit ".csv")
  = inr (Some (sn, T)).
Proof.
  intros Hsp Hl Hg HD1 HD2 HT1 HT2 Hf Hst.
  destruct (good_sn_facts sn Hg) as (Hne & Hsu & Hss & Hsn).
  split.
  - apply re_match_intro; [exact Hf| |exact Hne|exact Hsn].
    rewrite !app_assoc; apply strip_csv.
  - replace (lead ++ sn ++ lit "_" ++ D ++ lit "_" ++ TM ++ lit ".csv")
      with ((lead ++ sn ++ lit "_" ++ D ++ lit "_" ++ TM) ++ lit ".csv")
      by (rewrite <- !app_assoc; reflexivity).
    rewrite (parse_parts_eq _ _ _ _ (pl ++ [sn; D; TM]) sn D TM).
    + rewrite Hst; reflexivity.
    + rewrite !no_char_app, Hl, Hss, HD2, HT2; reflexivity.
    + apply existsb_exists; exists "_"%char; split; [|reflexivity].
      apply in_or_app; right; apply in_or_app; right; left; reflexivity.
    + rewrite Hsp; f_equal.
      change (lit "_" ++ D ++ lit "_" ++ TM) with ("_"%char :: D ++ "_"%char :: TM).
      rewrite split_on_sep by exact Hsu; rewrite split_on_sep by exact HD1.
      rewrite split_on_one by exact HT1; reflexivity.
    + rewrite nth_error_app2, Nat.sub_diag by lia; reflexivity.
    + rewrite nth_error_app2 by lia.
      replace (S (length pl) - length pl)%nat with 1%nat by lia; reflexivity.
    + rewrite nth_error_app2 by lia.
      replace (S (S (length pl)) - length pl)%nat with 2%nat by lia; reflexivity.
Qed.

Lemma split_results X : split_on "_" (lead_results ++ X) = [] ++ split_on "_" X.
Proof. reflexivity. Qed.

Lemma split_test X : split_on "_" (lead_test ++ X) = [lit "inverter"] ++ split_on "_" X.
Proof. reflexivity. Qed.

Lemma date_no_char a t : valid_dt t = true -> In a ["_"; "/"]%char -> no_char a (date_field t) = true.
Proof.
  intros Hv Ha; apply (F2_no_char a date_pat); [apply F2_date, Hv| |];
    destruct Ha as [<-|[<-|[]]]; reflexivity.
Qed.

Lemma hms_no_char a t : valid_dt t = true -> In a ["_"; "/"]%char -> no_char a (hms_field t) = true.
Proof.
  intros Hv Ha; apply (F2_no_char a (d2 ++ lits "-" ++ d2 ++ lits "-" ++ d2)); [apply F2_hms, Hv| |];
    destruct Ha as [<-|[<-|[]]]; reflexivity.
Qed.

Lemma hm_no_char a t : valid_dt t = true -> In a ["_"; "/"]%char -> no_char a (hm_field t) = true.
Proof.
  intros Hv Ha; apply (F2_no_char a (d2 ++ lits "-" ++ d2)); [apply F2_hm, Hv| |];
    destruct Ha as [<-|[<-|[]]]; reflexivity.
Qed.

Ltac in2 := first [left; reflexivity | right; left; reflexivity].

Lemma roundtrip_hms lead pl sn t :
  (forall X, split_on "_" (lead ++ X) = pl ++ split_on "_" X) -> no_char "/" lead = true ->
  good_sn sn = true -> valid_dt t = true ->
  re_match lead tail_hms (lead ++ result_name_hms sn t) = true /\
  parse_parts (length pl) [] fmt_hms (lead ++ result_name_hms sn t) = inr (Some (sn, t)).
Proof.
  intros Hsp Hl Hg Hv; unfold result_name_hms.
  apply roundtrip;
    [ exact Hsp | exact Hl | exact Hg
    | apply date_no_char; [exact Hv|in2] | apply date_no_char; [exact Hv|in2]
    | apply hms_no_char; [exact Hv|in2] | apply hms_no_char; [exact Hv|in2]
    | apply F2_tail_hms, Hv | apply strptime_hms, Hv ].
Qed.

Lemma roundtrip_hm lead pl sn t :
  (forall X, split_on "_" (lead ++ X) = pl ++ split_on "_" X) -> no_char "/" lead = true ->
  good_sn sn = true -> valid_dt t = true ->
  re_match lead tail_hm (lead ++ result_name_hm sn t) = true /\
  parse_parts (length pl) (lit ":00") fmt_hm_s (lead ++ result_name_hm sn t)
  = inr (Some (sn, with_second t 0)).
Proof.
  intros Hsp Hl Hg Hv; unfold result_name_hm.
  apply roundtrip;
    [ exact Hsp | exact Hl | exact Hg
    | apply date_no_char; [exact Hv|in2] | apply date_no_char; [exact Hv|in2]
    | apply hm_no_char; [exact Hv|in2] | apply hm_no_char; [exact Hv|in2]
    | apply F2_tail_hm, Hv | apply strptime_hm_s, Hv ].
Qed.

(** The pattern with seconds refuses a name without, and conversely. *)
Lemma reject_hm lead sn t : valid_dt t = true ->
  re_match lead tail_hms (lead ++ result_name_hm sn t) = false.
Proof.
  intro Hv.
  replace (lead ++ result_name_hm sn t)
    with ((lead ++ sn ++ lit "_" ++ date_field t) ++ "_"%char :: (hm_field t ++ lit ".csv"))
    by (unfold result_name_hm; rewrite <- !app_assoc; reflexivity).
  apply (re_match_reject _ _ (rev (d2 ++ lits "-" ++ d2 ++ lits ".csv")) (Lt "-")
           (rev (lits "_" ++ date_pat ++ lits "_" ++ d2))).
  - reflexivity.
  - apply Forall2_rev'.
    change (d2 ++ lits "-" ++ d2 ++ lits ".csv") with ((d2 ++ lits "-" ++ d2) ++ lits ".csv").
    apply Forall2_app; [apply F2_hm, Hv|apply F2_lits].
  - reflexivity.
  - rewrite app_comm_cons, !app_assoc; apply strip_csv.
Qed.

Lemma reject_hms lead sn t : valid_dt t = true ->
  re_match lead tail_hm (lead ++ result_name_hms sn t) = false.
Proof.
  intro Hv; pose proof (valid_dt_bounds t Hv) as B.
  replace (lead ++ result_name_hms sn t)
    with ((lead ++ sn ++ lit "_" ++ date_field t ++ lit "_" ++ two (hour t))
          ++ "-"%char :: (two (minute t) ++ lit "-" ++ two (second t) ++ lit ".csv"))
    by (unfold result_name_hms, hms_field; rewrite <- !app_assoc; reflexivity).
  apply (re_match_reject _ _ (rev (d2 ++ lits "-" ++ d2 ++ lits ".csv")) (Lt "_")
           (rev (lits "_" ++ date_pat))).
  - reflexivity.
  - apply Forall2_rev'; f2.
  - reflexivity.
  - rewrite app_comm_cons, !app_assoc; apply strip_csv.
Qed.


(** The eight outcomes of the four parsers on the two name forms. *)
Lemma codec_facts sn t : good_sn sn = true -> valid_dt t = true ->
  parse_results_file_w (result_name_hms sn t) = inr (Some (sn, t)) /\
  parse_results_file_w (result_name_hm sn t) = inr (Some (sn, with_second t 0)) /\
  parse_test_file_w (test_name_hms sn t) = inr (Some (sn, t)) /\
  parse_test_file_w (test_name_hm sn t) = inr (Some (sn, with_second t 0)) /\
  parse_results_file_b (result_name_hms sn t) = inr (Some (sn, t)) /\
  parse_results_file_b (result_name_hm sn t) = inr None /\
  parse_test_file_b (test_name_hm sn t) = inr (Some (sn, with_second t 0)) /\
  parse_test_file_b (test_name_hms sn t) = inr None.
Proof.
  intros Hg Hv.
  destruct (roundtrip_hms lead_results [] sn t split_results eq_refl Hg Hv) as [R1 P1].
  destruct (roundtrip_hm lead_results [] sn t split_results eq_refl Hg Hv) as [R2 P2].
  destruct (roundtrip_hms lead_test [lit "inverter"] sn t split_test eq_refl Hg Hv) as [R3 P3].
  destruct (roundtrip_hm lead_test [lit "inverter"] sn t split_test eq_refl Hg Hv) as [R4 P4].
  pose proof (reject_hm lead_results sn t Hv) as N2.
  pose proof (reject_hm lead_test sn t Hv) as N4.
  pose proof (reject_hms lead_test sn t Hv) as N3.
  change (lead_results ++ result_name_hms sn t) with (result_name_hms sn t) in R1, P1.
  change (lead_results ++ result_name_hm sn t) with (result_name_hm sn t) in R2, P2, N2.
  change (lead_test ++ result_name_hms sn t) with (test_name_hms sn t) in R3, P3, N3.
  change (lead_test ++ result_name_hm sn t) with (test_name_hm sn t) in R4, P4, N4.
  unfold parse_results_file_w, parse_results_file_b, parse_test_file_w, parse_test_file_b.
  rewrite R1, R2, R3, R4, N2, N3, N4.
  repeat split; first [exact P1 | exact P2 | exact P3 | exact P4 | reflexivity].
Qed.

End CodecFacts.
Import CodecFacts.


(** ** What the parsers return *)
Module ParseFacts.

Lemma rpat_inv p : forall r r', rpat p r = Some r' -> exists x, r = x ++ r' /\ Forall2 okc p x.
Proof.
  induction p as [|k p IH]; intros [|c r] r' H; cbn [rpat] in H; try discriminate.
  - injection H as <-; exists []; split; [reflexivity|constructor].
  - injection H as <-; exists []; split; [reflexivity|constructor].
  - destruct (cls_ok k c) eqn:E; [|discriminate].
    destruct (IH _ _ H) as [x [-> Hx]].
    exists (c :: x); split; [reflexivity|constructor; assumption].
Qed.

Lemma strip_final_nl_cases w :
  w = strip_final_nl w \/ w = strip_final_nl w ++ ["010"%char].
Proof.
  unfold strip_final_nl; destruct (rev w) as [|c r] eqn:E; [left; reflexivity|].
  destruct (is_nl c) eqn:N; [|left; reflexivity].
  right; unfold is_nl in N; apply Ascii.eqb_eq in N; subst c.
  rewrite <- (rev_involutive w), E; reflexivity.
Qed.

Lemma F2_map_Lt w : forall y, Forall2 okc (map Lt w) y -> y = w.
Proof.
  induction w as [|a w IH]; intros y H; inversion H as [|k c p y' Hk Hr]; subst; [reflexivity|].
  unfold okc in Hk; cbn [cls_ok] in Hk; apply Ascii.eqb_eq in Hk; subst; f_equal; apply IH, Hr.
Qed.

(** Classes that match neither [a] nor [b]. *)
Definition avoids (a b : ascii) (p : list cls) : bool :=
  forallb (fun k => match k with Dg => true | Lt c => negb (Ascii.eqb c a) && negb (Ascii.eqb c b) end) p.

Lemma F2_avoids a b p w : Forall2 okc p w -> is_digit a = false -> is_digit b = false ->
  avoids a b p = true -> no_char a w = true /\ no_char b w = true.
Proof.
  intros H Ha Hb Hp; split; apply (F2_no_char _ p w H); try assumption;
    unfold avoids in Hp; rewrite forallb_forall in Hp; apply forallb_forall; intros [|c] Hk;
    try reflexivity; specialize (Hp _ Hk); cbn in Hp; apply andb_prop in Hp; tauto.
Qed.

(** A tail [_<dp>_<tp>.csv] fits a subject as [_D_TM.csv]. *)
Lemma F2_tail_split dp tp y :
  avoids "." "/" dp = true -> avoids "." "/" tp = true ->
  Forall2 okc (lits "_" ++ dp ++ lits "_" ++ tp ++ lits ".csv") y ->
  exists D TM, y = "_"%char :: D ++ "_"%char :: TM ++ lit ".csv" /\
    no_char "." D = true /\ no_char "/" D = true /\ no_char "." TM = true /\ no_char "/" TM = true.
Proof.
  intros Hd Ht H.
  apply Forall2_app_inv_l in H as (u1 & y1 & H1 & H & ->).
  apply Forall2_app_inv_l in H as (D & y2 & HD & H & ->).
  apply Forall2_app_inv_l in H as (u2 & y3 & H2 & H & ->).
  apply Forall2_app_inv_l in H as (TM & u3 & HT & H3 & ->).
  apply F2_map_Lt in H1, H2, H3; subst.
  destruct (F2_avoids "." "/" _ _ HD eq_refl eq_refl Hd).
  destruct (F2_avoids "." "/" _ _ HT eq_refl eq_refl Ht).
  exists D, TM; repeat split; assumption.
Qed.

Lemma tail_hms_eq :
  tail_hms = lits "_" ++ date_pat ++ lits "_" ++ (d2 ++ lits "-" ++ d2 ++ lits "-" ++ d2) ++ lits ".csv".
Proof. reflexivity. Qed.

Lemma tail_hm_eq : tail_hm = lits "_" ++ date_pat ++ lits "_" ++ (d2 ++ lits "-" ++ d2) ++ lits ".csv".
Proof. reflexivity. Qed.

(** What a successful [re.match] says about the subject. *)
Lemma re_match_shape lead tail w :
  (tail = tail_hms \/ tail = tail_hm) -> re_match lead tail w = true ->
  exists P D TM E, w = lead ++ P ++ "_"%char :: D ++ "_"%char :: TM ++ lit ".csv" ++ E /\
    (E = [] \/ E = ["010"%char]) /\
    no_char "." D = true /\ no_char "/" D = true /\ no_char "." TM = true /\ no_char "/" TM = true.
Proof.
  intros Ht H; unfold re_match in H.
  destruct (rpat (rev tail) (rev (strip_final_nl w))) as [rpre|] eqn:R; [|discriminate].
  apply andb_prop in H as [H _]; apply andb_prop in H as [H _].
  apply str_eqb_eq in H.
  destruct (rpat_inv _ _ _ R) as [x [Ex Fx]].
  apply Forall2_rev' in Fx; rewrite rev_involutive in Fx.
  assert (Y : exists D TM, rev x = "_"%char :: D ++ "_"%char :: TM ++ lit ".csv" /\
    no_char "." D = true /\ no_char "/" D = true /\ no_char "." TM = true /\ no_char "/" TM = true).
  { destruct Ht as [-> | ->]; [rewrite tail_hms_eq in Fx | rewrite tail_hm_eq in Fx];
      apply F2_tail_split in Fx; auto. }
  destruct Y as (D & TM & Ey & N1 & N2 & N3 & N4).
  assert (Ew : strip_final_nl w = rev rpre ++ rev x)
    by (rewrite <- (rev_involutive (strip_final_nl w)), Ex, rev_app_distr; reflexivity).
  rewrite <- (firstn_skipn (length lead) (rev rpre)), H in Ew.
  exists (skipn (length lead) (rev rpre)), D, TM.
  destruct (strip_final_nl_cases w) as [Ew'|Ew'].
  - exists []; split; [|repeat split; auto].
    rewrite Ew', Ew, Ey, app_nil_r, <- !app_assoc; reflexivity.
  - exists ["010"%char]; split; [|repeat split; auto].
    rewrite Ew', Ew, Ey; repeat (rewrite <- app_assoc || rewrite <- app_comm_cons); reflexivity.
Qed.

(** *** [splitext] on such a subject *)

Lemma index_of_app a u v : no_char a u = true ->
  index_of a (u ++ v) = option_map (Nat.add (length u)) (index_of a v).
Proof.
  induction u as [|x u IH]; intro H; cbn [app index_of length].
  - destruct (index_of a v); reflexivity.
  - cbn in H; apply andb_prop in H as [H1 H2]; apply negb_true_iff in H1; rewrite H1, IH by exact H2.
    destruct (index_of a v); reflexivity.
Qed.

Lemma index_of_lt a w i : index_of a w = Some i -> (i < length w)%nat.
Proof.
  revert i; induction w as [|x w IH]; intros i H; cbn in H; [discriminate|].
  destruct (Ascii.eqb x a); [injection H as <-; cbn; lia|].
  destruct (index_of a w) as [j|] eqn:E; cbn in H; [|discriminate].
  injection H as <-; specialize (IH j eq_refl); cbn; lia.
Qed.

Lemma in_firstn_past {A} (X Y : list A) (c : A) n :
  (length X < n)%nat -> In c (firstn n (X ++ c :: Y)).
Proof.
  intro Hn; rewrite firstn_app, firstn_all2 by lia.
  apply in_or_app; right.
  destruct (n - length X)%nat eqn:E; [lia|left; reflexivity].
Qed.

Lemma splitext_tail P Q E :
  no_char "." Q = true -> no_char "/" Q = true -> (E = [] \/ E = ["010"%char]) ->
  splitext (P ++ "_"%char :: Q ++ lit ".csv" ++ E) = (P ++ "_"%char :: Q, lit ".csv" ++ E).
Proof.
  intros Hd Hs HE.
  set (w := P ++ "_"%char :: Q ++ lit ".csv" ++ E).
  assert (Lw : length w = (length P + 1 + length Q + 4 + length E)%nat)
    by (subst w; rewrite !length_app; cbn [length]; rewrite length_app; cbn; lia).
  assert (HE1 : no_char "." (rev E) = true /\ no_char "/" (rev E) = true)
    by (destruct HE as [->| ->]; split; reflexivity).
  assert (Rw' : rev w = (rev E ++ rev (lit ".csv") ++ rev Q ++ ["_"%char]) ++ rev P).
  { subst w; rewrite !rev_app_distr; cbn [rev]; rewrite !rev_app_distr, <- !app_assoc; reflexivity. }
  (* the last dot *)
  assert (D1 : index_of "."%char (rev w) = Some (length E + 3)%nat).
  { rewrite Rw', <- app_assoc, index_of_app.
    - change (rev (lit ".csv")) with ["v"; "s"; "c"; "."]%char; cbn.
      rewrite length_rev; f_equal; lia.
    - destruct HE1 as [-> _]; reflexivity. }
  (* the last slash lies in P *)
  assert (S1 : exists sep, rfind "/"%char w = sep /\ (-1 <= sep <= Z.of_nat (length P) - 1)%Z).
  { unfold rfind; rewrite Rw', index_of_app.
    - destruct (index_of "/"%char (rev P)) as [k|] eqn:K; cbn [option_map].
      + apply index_of_lt in K; rewrite length_rev in K.
        eexists; split; [reflexivity|].
        rewrite !length_app, !length_rev in *; cbn [length] in *; rewrite Lw; change (length (lit ".csv")) with 4%nat; lia.
      + eexists; split; [reflexivity|]; lia.
    - rewrite !no_char_app, !no_char_rev; destruct HE as [-> | ->]; rewrite Hs; reflexivity. }
  destruct S1 as [sep [Es Bs]].
  assert (Ed : rfind "."%char w = Z.of_nat (length P + 1 + length Q)).
  { unfold rfind; rewrite D1, Lw; lia. }
  unfold splitext; fold w; rewrite Es, Ed.
  replace (sep <? Z.of_nat (length P + 1 + length Q))%Z with true by (symmetry; apply Z.ltb_lt; lia).
  assert (Ex : existsb (fun c => negb (Ascii.eqb c ".")) (slice (sep + 1) (Z.of_nat (length P + 1 + length Q)) w) = true).
  { apply existsb_exists; exists "_"%char; split; [|reflexivity].
    unfold slice; rewrite Nat2Z.id.
    subst w; rewrite skipn_app.
    replace (Z.to_nat (sep + 1) - length P)%nat with O by lia; cbn [skipn].
    apply in_firstn_past; rewrite length_skipn; lia. }
  rewrite Ex, Nat2Z.id.
  replace (length P + 1 + length Q)%nat with (length (P ++ "_"%char :: Q)) by (rewrite length_app; cbn; lia).
  subst w; replace (P ++ "_"%char :: Q ++ lit ".csv" ++ E) with ((P ++ "_"%char :: Q) ++ lit ".csv" ++ E)
    by (rewrite <- app_assoc; reflexivity).
  rewrite firstn_app_len, skipn_app_len; reflexivity.
Qed.

(** *** [split('_')] *)

Lemma split_on_app_sep a u v : split_on a (u ++ a :: v) = split_on a u ++ split_on a v.
Proof.
  induction u as [|x u IH]; cbn [app split_on].
  - rewrite Ascii.eqb_refl; reflexivity.
  - destruct (Ascii.eqb x a); [rewrite IH; reflexivity|].
    rewrite IH; destruct (split_on a u) as [|h t] eqn:E; [|reflexivity].
    destruct u; cbn in E; [discriminate|]; destruct (Ascii.eqb a0 a); [discriminate|];
      destruct (split_on a u); discriminate.
Qed.

Lemma split_on_nonempty a w : (1 <= length (split_on a w))%nat.
Proof.
  induction w as [|x w IH]; cbn [split_on]; [cbn; lia|].
  destruct (Ascii.eqb x a); [cbn; lia|]; destruct (split_on a w); cbn; lia.
Qed.

Lemma split_on_no_char a w p : In p (split_on a w) -> no_char a p = true.
Proof.
  revert p; induction w as [|x w IH]; intros p H; cbn [split_on] in H.
  - destruct H as [<-|[]]; reflexivity.
  - destruct (Ascii.eqb x a) eqn:Ex.
    + destruct H as [<-|H]; [reflexivity|apply IH, H].
    + destruct (split_on a w) as [|h t] eqn:Es.
      * destruct H as [<-|[]]; cbn; rewrite Ex; reflexivity.
      * destruct H as [<-|H].
        -- cbn; rewrite Ex; apply IH; try rewrite Es; left; reflexivity.
        -- apply IH; try rewrite Es; right; exact H.
Qed.

(** The three fields after [i] exist whenever the base name has [i + 3]
    parts, and then [parse_parts] raises nothing. *)
Lemma parse_parts_total i extra fmt w :
  (S (S i) < length (split_on "_"%char (fst (splitext w))))%nat ->
  exists r, parse_parts i extra fmt w = inr r.
Proof.
  intro Hl; unfold parse_parts.
  set (parts := split_on "_"%char (fst (splitext w))) in *.
  unfold index.
  destruct (nth_error parts i) eqn:E0; [|apply nth_error_None in E0; lia].
  destruct (nth_error parts (S i)) eqn:E1; [|apply nth_error_None in E1; lia].
  destruct (nth_error parts (S (S i))) eqn:E2; [|apply nth_error_None in E2; lia].
  cbn; eexists; reflexivity.
Qed.

Lemma parse_parts_matched lead i tail extra fmt w :
  (tail = tail_hms \/ tail = tail_hm) ->
  (forall X, (S i <= length (split_on "_"%char (lead ++ X)))%nat) ->
  re_match lead tail w = true -> exists r, parse_parts i extra fmt w = inr r.
Proof.
  intros Ht Hlead Hm.
  destruct (re_match_shape lead tail w Ht Hm) as (P & D & TM & E & -> & HE & N1 & N2 & N3 & N4).
  apply parse_parts_total.
  replace (lead ++ P ++ "_"%char :: D ++ "_"%char :: TM ++ lit ".csv" ++ E)
    with ((lead ++ P) ++ "_"%char :: (D ++ "_"%char :: TM) ++ lit ".csv" ++ E)
    by (rewrite <- !app_assoc; reflexivity).
  rewrite splitext_tail; cbn [fst].
  - rewrite !split_on_app_sep, !length_app.
    pose proof (Hlead P); pose proof (split_on_nonempty "_" D); pose proof (split_on_nonempty "_" TM); lia.
  - rewrite no_char_app, N1; exact N3.
  - rewrite no_char_app, N2; exact N4.
  - exact HE.
Qed.

Lemma lead_results_parts X : (1 <= length (split_on "_"%char (lead_results ++ X)))%nat.
Proof. apply split_on_nonempty. Qed.

Lemma lead_test_parts X : (2 <= length (split_on "_"%char (lead_test ++ X)))%nat.
Proof. rewrite split_test; cbn [app length]; pose proof (split_on_nonempty "_" X); lia. Qed.

Lemma parse_results_file_b_total w : exists r, parse_results_file_b w = inr r.
Proof.
  unfold parse_results_file_b; destruct (re_match lead_results tail_hms w) eqn:M; [|eexists; reflexivity].
  eapply parse_parts_matched; [left; reflexivity|apply lead_results_parts|exact M].
Qed.

Lemma parse_test_file_b_total w : exists r, parse_test_file_b w = inr r.
Proof.
  unfold parse_test_file_b; destruct (re_match lead_test tail_hm w) eqn:M; [|eexists; reflexivity].
  eapply parse_parts_matched; [right; reflexivity|apply lead_test_parts|exact M].
Qed.

Lemma parse_results_file_w_total w : exists r, parse_results_file_w w = inr r.
Proof.
  unfold parse_results_file_w; destruct (re_match lead_results tail_hms w) eqn:M.
  - eapply parse_parts_matched; [left; reflexivity|apply lead_results_parts|exact M].
  - destruct (re_match lead_results tail_hm w) eqn:M'; [|eexists; reflexivity].
    eapply parse_parts_matched; [right; reflexivity|apply lead_results_parts|exact M'].
Qed.

Lemma parse_test_file_w_total w : exists r, parse_test_file_w w = inr r.
Proof.
  unfold parse_test_file_w; destruct (re_match lead_test tail_hms w) eqn:M.
  - eapply parse_parts_matched; [left; reflexivity|apply lead_test_parts|exact M].
  - destruct (re_match lead_test tail_hm w) eqn:M'; [|eexists; reflexivity].
    eapply parse_parts_matched; [right; reflexivity|apply lead_test_parts|exact M'].
Qed.


(** *** What the parsers return *)

Lemma strptime_valid data fmt t : strptime data fmt = Some t -> valid_dt t = true.
Proof.
  unfold strptime; destruct (rmatch _ _ _ _) as [[rest cs]|]; [|discriminate].
  destruct rest; [|discriminate].
  match goal with |- (if valid_dt ?t0 then _ else _) = _ -> _ =>
    destruct (valid_dt t0) eqn:V; intro H; [injection H as <-; exact V|discriminate] end.
Qed.

Lemma parse_parts_some i extra fmt w sn T :
  parse_parts i extra fmt w = inr (Some (sn, T)) -> valid_dt T = true /\ no_char "_" sn = true.
Proof.
  unfold parse_parts, index; intro H.
  set (parts := split_on "_"%char (fst (splitext w))) in *.
  destruct (nth_error parts i) as [sn'|] eqn:E0; cbv beta iota delta [bind ret raise] in H; [|discriminate].
  destruct (nth_error parts (S i)) as [D|]; cbv beta iota delta [bind ret raise] in H; [|discriminate].
  destruct (nth_error parts (S (S i))) as [TM|]; cbv beta iota delta [bind ret raise] in H; [|discriminate].
  destruct (strptime _ _) as [T'|] eqn:Es; injection H; [|discriminate].
  intros -> ->; split; [eapply strptime_valid; exact Es|].
  apply nth_error_In in E0; eapply split_on_no_char; exact E0.
Qed.

Ltac parse_some H :=
  repeat match type of H with
  | (if ?c then _ else _) = _ => destruct c
  | parse_parts _ _ _ _ = _ => apply parse_parts_some in H; exact H
  | ret _ = _ => discriminate H
  end.

Lemma parse_results_file_b_some w sn T :
  parse_results_file_b w = inr (Some (sn, T)) -> valid_dt T = true /\ no_char "_" sn = true.
Proof. unfold parse_results_file_b; intro H; parse_some H. Qed.

Lemma parse_test_file_b_some w sn T :
  parse_test_file_b w = inr (Some (sn, T)) -> valid_dt T = true /\ no_char "_" sn = true.
Proof. unfold parse_test_file_b; intro H; parse_some H. Qed.

Lemma parse_results_file_w_some w sn T :
  parse_results_file_w w = inr (Some (sn, T)) -> valid_dt T = true /\ no_char "_" sn = true.
Proof. unfold parse_results_file_w; intro H; parse_some H. Qed.

Lemma parse_test_file_w_some w sn T :
  parse_test_file_w w = inr (Some (sn, T)) -> valid_dt T = true /\ no_char "_" sn = true.
Proof. unfold parse_test_file_w; intro H; parse_some H. Qed.

End ParseFacts.
Import ParseFacts.

(** ** The matcher, step by step *)
Module SelectFacts.

Lemma candidates_b_total sn T listing : exists c, candidates_b sn T listing = inr c.
Proof.
  induction listing as [|tf rest [c IH]]; [eexists; reflexivity|].
  rewrite candidates_b_cons; destruct (negb _); [exists c; exact IH|].
  destruct (parse_test_file_b_total tf) as [r Hr]; rewrite Hr, IH; cbn; eexists; reflexivity.
Qed.

Lemma candidates_w_total sn T listing : exists c, candidates_w sn T listing = inr c.
Proof.
  induction listing as [|tf rest [c IH]]; [eexists; reflexivity|].
  rewrite candidates_w_cons.
  destruct (parse_test_file_w_total tf) as [r Hr]; rewrite Hr, IH; cbn; eexists; reflexivity.
Qed.

Lemma minus_days_3 T : minus_days T 3 =
  if (toordinal T <=? 3)%Z then raise OverflowError else ret (dt_key T - 3 * 86400)%Z.
Proof.
  unfold minus_days.
  replace (toordinal T - 3 <? 1)%Z with (toordinal T <=? 3)%Z; [reflexivity|].
  destruct (toordinal T <=? 3)%Z eqn:E, (toordinal T - 3 <? 1)%Z eqn:E';
    rewrite ?Z.leb_le, ?Z.leb_gt, ?Z.ltb_lt, ?Z.ltb_ge in *; lia.
Qed.


Lemma candidates_b_mem sn T listing : forall c t S_,
  candidates_b sn T listing = inr c -> In (t, S_) c ->
  In t listing /\ endswith (lit ".csv") t = true /\ parse_test_file_b t = inr (Some (sn, S_)) /\
  dt_lt S_ T = true.
Proof.
  induction listing as [|tf rest IH]; intros c t S_ H Hin.
  - injection H as <-; destruct Hin.
  - rewrite candidates_b_cons in H; destruct (endswith (lit ".csv") tf) eqn:Ecsv; cbn [negb] in H.
    + destruct (parse_test_file_b tf) as [e|ti] eqn:Ep; cbn in H; [discriminate|].
      destruct (candidates_b sn T rest) as [e|cs] eqn:Hr; cbn in H; [discriminate|].
      injection H as <-.
      assert (R : In (t, S_) cs -> In t (tf :: rest) /\ endswith (lit ".csv") t = true /\
                  parse_test_file_b t = inr (Some (sn, S_)) /\ dt_lt S_ T = true)
        by (intro Hc; destruct (IH cs t S_ eq_refl Hc) as (A & B & C & D); repeat split; auto; right; auto).
      destruct ti as [[sn' S']|]; [|auto].
      destruct (str_eqb sn' sn && dt_lt S' T) eqn:E; [|auto].
      destruct Hin as [Hin|Hin]; [|auto].
      injection Hin as <- <-; apply andb_prop in E as [E1 E2]; apply str_eqb_eq in E1; subst sn'.
      repeat split; auto; left; reflexivity.
    + destruct (IH c t S_ H Hin) as (A & B & C & D); repeat split; auto; right; auto.
Qed.

Lemma candidates_w_mem sn T listing : forall c t S_,
  candidates_w sn T listing = inr c -> In (t, S_) c ->
  In t listing /\ parse_test_file_w t = inr (Some (sn, S_)) /\ dt_le S_ T = true.
Proof.
  induction listing as [|tf rest IH]; intros c t S_ H Hin.
  - injection H as <-; destruct Hin.
  - rewrite candidates_w_cons in H.
    destruct (parse_test_file_w tf) as [e|ti] eqn:Ep; cbn in H; [discriminate|].
    destruct (candidates_w sn T rest) as [e|cs] eqn:Hr; cbn in H; [discriminate|].
    injection H as <-.
    assert (R : In (t, S_) cs -> In t (tf :: rest) /\
                parse_test_file_w t = inr (Some (sn, S_)) /\ dt_le S_ T = true)
      by (intro Hc; destruct (IH cs t S_ eq_refl Hc) as (A & B & C); repeat split; auto; right; auto).
    destruct ti as [[sn' S']|]; [|auto].
    destruct (str_eqb sn' sn && dt_le S' T) eqn:E; [|auto].
    destruct Hin as [Hin|Hin]; [|auto].
    injection Hin as <- <-; apply andb_prop in E as [E1 E2]; apply str_eqb_eq in E1; subst sn'.
    repeat split; auto; left; reflexivity.
Qed.

(** *** [max(..., key=lambda x: x[1])] *)

Definition key (x : str * datetime) : Z := dt_key (snd x).

Lemma fold_max r : forall pre b mid,
  Forall (fun y => key y < key b)%Z pre -> Forall (fun y => key y <= key b)%Z mid ->
  exists pre' post',
    pre ++ b :: mid ++ r
    = pre' ++ fold_left (fun best y => if (dt_key (snd best) <? dt_key (snd y))%Z then y else best) r b
           :: post' /\
    Forall (fun y => key y < key (fold_left (fun best y => if (dt_key (snd best) <? dt_key (snd y))%Z then y else best) r b))%Z pre' /\
    Forall (fun y => key y <= key (fold_left (fun best y => if (dt_key (snd best) <? dt_key (snd y))%Z then y else best) r b))%Z post'.
Proof.
  induction r as [|y r IH]; intros pre b mid Hp Hm; cbn [fold_left].
  - exists pre, mid; rewrite app_nil_r; auto.
  - destruct (dt_key (snd b) <? dt_key (snd y))%Z eqn:E.
    + apply Z.ltb_lt in E; fold (key b) (key y) in E.
      destruct (IH (pre ++ b :: mid) y [] ) as (pre' & post' & Eq & F1 & F2).
      * apply Forall_app; split; [|constructor; [exact E|]].
        -- eapply Forall_impl; [|exact Hp]; cbv beta; intros; lia.
        -- eapply Forall_impl; [|exact Hm]; cbv beta; intros; lia.
      * constructor.
      * exists pre', post'; split; [|auto].
        rewrite <- Eq, <- app_assoc; reflexivity.
    + apply Z.ltb_ge in E; fold (key b) (key y) in E.
      destruct (IH pre b (mid ++ [y]) Hp) as (pre' & post' & Eq & F1 & F2).
      * apply Forall_app; split; [exact Hm|constructor; [exact E|constructor]].
      * exists pre', post'; split; [|auto].
        rewrite <- Eq, <- app_assoc; reflexivity.
Qed.

Lemma py_max_spec l m : py_max l = Some m ->
  exists pre post, l = pre ++ m :: post /\
    Forall (fun y => key y < key m)%Z pre /\ Forall (fun y => key y <= key m)%Z post.
Proof.
  destruct l as [|x r]; cbn [py_max]; intro H; [discriminate|injection H as <-].
  exact (fold_max r [] x [] (Forall_nil _) (Forall_nil _)).
Qed.

Lemma select_selected cands k t :
  select cands k = Selected t ->
  exists S_, In (t, S_) cands /\ (k <= dt_key S_)%Z /\
    forall y, In y cands -> (key y <= dt_key S_)%Z.
Proof.
  unfold select; destruct (py_max cands) as [[t' S']|] eqn:E; [|discriminate].
  destruct (k <=? dt_key S')%Z eqn:K; intro H; injection H as <- || discriminate.
  apply py_max_spec in E as (pre & post & -> & F1 & F2).
  exists S'; split; [apply in_or_app; right; left; reflexivity|split; [apply Z.leb_le, K|]].
  intros y Hy; apply in_app_or in Hy as [Hy|[<-|Hy]].
  - rewrite Forall_forall in F1; specialize (F1 y Hy); unfold key in *; cbn in F1; lia.
  - unfold key; cbn; lia.
  - rewrite Forall_forall in F2; specialize (F2 y Hy); unfold key in *; cbn in F2; lia.
Qed.

Lemma after_match_selected f file s d ops t :
  after_match f file s = (d, ops) -> (d = StagedBoth t \/ d = StagedResultOnly t) -> s = Selected t.
Proof.
  destruct s as [|t'|t']; cbn; intros H Hd.
  - injection H as <- <-; destruct Hd; discriminate.
  - injection H as <- <-; destruct Hd; discriminate.
  - unfold stage in H; destruct (test_known f t'); injection H as <- <-;
      destruct Hd as [Hd|Hd]; try discriminate; injection Hd as ->; reflexivity.
Qed.

End SelectFacts.
Import SelectFacts.

(** ** The loops *)
Module LoopFacts.

Definition is_result_copy (o : op) : bool :=
  match o with CopyResult _ => true | CopyTest _ => false end.

(** The number of results files the ops copy. *)
Definition result_copies (ops : list op) : nat := length (filter is_result_copy ops).

Lemma result_copies_app a b : result_copies (a ++ b) = (result_copies a + result_copies b)%nat.
Proof. unfold result_copies; rewrite filter_app, length_app; reflexivity. Qed.

Lemma run_items_tally_eq {I T} (step : fs -> I -> res (decision * list op)) tally (items : list I) :
  forall f (acc : T),
  let '(f', ops, _, e) := run_items_tally step tally f items acc in
  run_items step f items = (f', ops, e).
Proof.
  induction items as [|it rest IH]; intros f acc; cbn [run_items_tally run_items]; [reflexivity|].
  destruct (step f it) as [e|[d ops]]; [reflexivity|].
  specialize (IH (apply_ops f ops) (tally acc d)).
  destruct (run_items_tally step tally (apply_ops f ops) rest (tally acc d)) as [[[f' ops'] acc'] e].
  rewrite IH; reflexivity.
Qed.

Lemma count_w_add n d : count_w n d = (n + count_w 0 d)%nat.
Proof. destruct d; cbn; lia. Qed.

Lemma after_match_count f file s :
  count_w 0 (fst (after_match f file s)) = result_copies (snd (after_match f file s)).
Proof. destruct s as [|t|t]; [reflexivity|reflexivity|]; cbn; unfold stage; destruct (test_known f t); reflexivity. Qed.

Lemma admit_w_count f file listing d ops :
  admit_w f file listing = inr (d, ops) -> count_w 0 d = result_copies ops.
Proof.
  unfold admit_w; intro H.
  destruct (result_known f file); [injection H; intros; subst; reflexivity|].
  destruct (parse_results_file_w file) as [e|[[sn T]|]]; cbn in H; try discriminate;
    [|injection H; intros; subst; reflexivity].
  destruct (match_w sn T listing) as [e|s]; cbn in H; [discriminate|].
  injection H as H; pose proof (after_match_count f file s) as C; rewrite H in C; exact C.
Qed.

Lemma admit_b_count cfg f file content listing d ops :
  admit_b cfg f file content listing = inr (d, ops) -> count_w 0 d = result_copies ops.
Proof.
  unfold admit_b; intro H.
  destruct (result_known f file); [injection H; intros; subst; reflexivity|].
  destruct (parse_results_file_b file) as [e|[[sn T]|]]; cbn in H; try discriminate;
    [|injection H; intros; subst; reflexivity].
  destruct (dt_le T (cutoff_date cfg)); [injection H; intros; subst; reflexivity|].
  destruct (check_firmware_version _ _); [injection H; intros; subst; reflexivity|].
  destruct (match_b sn T listing) as [e|s]; cbn in H; [discriminate|].
  injection H as H; pose proof (after_match_count f file s) as C; rewrite H in C; exact C.
Qed.

Section Tally.
Context {I : Type} (step : fs -> I -> res (decision * list op)).
Hypothesis step_count : forall f it d ops, step f it = inr (d, ops) -> count_w 0 d = result_copies ops.

Lemma run_items_tally_count (items : list I) : forall f n,
  let '(_, ops, n', _) := run_items_tally step count_w f items n in
  n' = (n + result_copies ops)%nat.
Proof.
  induction items as [|it rest IH]; intros f n; cbn [run_items_tally]; [cbn; lia|].
  destruct (step f it) as [e|[d ops]] eqn:Hs; [cbn; lia|].
  specialize (IH (apply_ops f ops) (count_w n d)).
  destruct (run_items_tally step count_w (apply_ops f ops) rest (count_w n d)) as [[[f' ops'] n'] e].
  rewrite IH, result_copies_app, count_w_add, (step_count _ _ _ _ Hs); lia.
Qed.

End Tally.

Lemma cycle_w_count_eq (sources : list source) : forall f n,
  let '(f1, ops, e) := cycle_w f sources in
  cycle_w_count f sources n = (f1, ops, (n + result_copies ops)%nat, e).
Proof.
  induction sources as [|[[results|] [data|]] rest IH]; intros f n; cbn [cycle_w cycle_w_count];
    try apply IH; [unfold result_copies; cbn; rewrite Nat.add_0_r; reflexivity|].
  pose proof (run_items_tally_eq (fun f' file => admit_w f' file data) count_w results f n) as E1.
  pose proof (run_items_tally_count (fun f' file => admit_w f' file data)
                (fun f' file => admit_w_count f' file data) results f n) as C1.
  destruct (run_items_tally _ count_w f results n) as [[[f1 ops1] n1] e1].
  rewrite E1; subst n1.
  destruct e1 as [e|]; [reflexivity|].
  specialize (IH f1 (n + result_copies ops1)%nat).
  destruct (cycle_w f1 rest) as [[f2 ops2] e2].
  rewrite IH, result_copies_app; f_equal; f_equal; lia.
Qed.

(** *** Knowing a results file, and running again *)

(** Every results file [f] holds in to_process/results or
    processed/results, [g] holds too. *)
Definition knows (f g : fs) : Prop := forall x, result_known f x = true -> result_known g x = true.

Lemma knows_refl f : knows f f.
Proof. intros x H; exact H. Qed.

Lemma knows_trans f g h : knows f g -> knows g h -> knows f h.
Proof. intros A B x H; apply B, A, H. Qed.

Lemma knows_apply_ops f ops : knows f (apply_ops f ops).
Proof. intros x H; apply result_known_apply_ops, H. Qed.

Lemma run_items_knows {I} (step : fs -> I -> res (decision * list op)) (items : list I) :
  forall f, knows f (fst (fst (run_items step f items))).
Proof.
  induction items as [|it rest IH]; intros f; cbn [run_items]; [apply knows_refl|].
  destruct (step f it) as [e|[d ops]]; [apply knows_refl|].
  specialize (IH (apply_ops f ops)).
  destruct (run_items step (apply_ops f ops) rest) as [[f' ops'] e].
  eapply knows_trans; [apply knows_apply_ops|exact IH].
Qed.

Lemma cycle_w_knows (sources : list source) : forall f, knows f (fst (fst (cycle_w f sources))).
Proof.
  induction sources as [|[[results|] [data|]] rest IH]; intros f; cbn [cycle_w];
    try apply IH; [apply knows_refl|].
  pose proof (run_items_knows (fun f' file => admit_w f' file data) results f) as K1.
  destruct (run_items _ f results) as [[f1 ops1] e1]; cbn in K1.
  destruct e1 as [e|]; [exact K1|].
  specialize (IH f1); destruct (cycle_w f1 rest) as [[f2 ops2] e2].
  eapply knows_trans; eauto.
Qed.

Section Idem.
Context {I : Type} (step : fs -> I -> res (decision * list op)).
(** A step that copied something leaves its results file known ... *)
Hypothesis step_done : forall f it d ops, step f it = inr (d, ops) -> ops <> [] ->
  forall g, knows (apply_ops f ops) g -> exists d', step g it = inr (d', []).
(** ... and a step that copied nothing copies nothing later. *)
Hypothesis step_quiet : forall f it d, step f it = inr (d, []) ->
  forall g, knows f g -> exists d', step g it = inr (d', []).

Lemma run_items_idem (items : list I) : forall f f1 ops,
  run_items step f items = (f1, ops, None) ->
  forall g, knows f1 g -> run_items step g items = (g, [], None).
Proof.
  induction items as [|it rest IH]; intros f f1 ops H g Hg; cbn [run_items] in *; [reflexivity|].
  destruct (step f it) as [e|[d ops0]] eqn:Hs; [discriminate|].
  pose proof (run_items_knows step rest (apply_ops f ops0)) as K.
  destruct (run_items step (apply_ops f ops0) rest) as [[f' ops'] e'] eqn:Hr.
  injection H as -> _ ->; cbn in K.
  assert (Q : exists d', step g it = inr (d', [])).
  { destruct ops0 as [|o ops0].
    - apply (step_quiet f it d Hs).
      eapply knows_trans; [|exact Hg]; exact K.
    - apply (step_done f it d (o :: ops0) Hs ltac:(discriminate)).
      eapply knows_trans; [exact K|exact Hg]. }
  destruct Q as [d' Hg'].
  rewrite Hg'; change (apply_ops g []) with g.
  rewrite (IH _ _ _ Hr g Hg); reflexivity.
Qed.

End Idem.

Lemma admit_b_done cfg content listing f file d ops :
  admit_b cfg f file content listing = inr (d, ops) -> ops <> [] ->
  forall g, knows (apply_ops f ops) g -> exists d', admit_b cfg g file content listing = inr (d', []).
Proof.
  intros H Hne g Hg.
  pose proof (shape_result_known f file ops (admit_b_shape _ _ _ _ _ _ _ H) Hne) as K.
  exists AlreadyExists; unfold admit_b; rewrite (Hg _ K); reflexivity.
Qed.

Lemma admit_w_done listing f file d ops :
  admit_w f file listing = inr (d, ops) -> ops <> [] ->
  forall g, knows (apply_ops f ops) g -> exists d', admit_w g file listing = inr (d', []).
Proof.
  intros H Hne g Hg.
  pose proof (shape_result_known f file ops (admit_w_shape _ _ _ _ _ H) Hne) as K.
  exists AlreadyExists; unfold admit_w; rewrite (Hg _ K); reflexivity.
Qed.

Lemma after_match_quiet f g file s d :
  after_match f file s = (d, []) -> exists d', after_match g file s = (d', []).
Proof.
  destruct s as [|t|t]; cbn; intro H; [eexists; reflexivity|eexists; reflexivity|].
  unfold stage in H; destruct (test_known f t); discriminate.
Qed.

Lemma admit_b_quiet cfg content listing f file d :
  admit_b cfg f file content listing = inr (d, []) ->
  forall g, knows f g -> exists d', admit_b cfg g file content listing = inr (d', []).
Proof.
  intros H g Hg; unfold admit_b in *.
  destruct (result_known g file) eqn:Eg; [eexists; reflexivity|].
  destruct (result_known f file) eqn:Ef; [rewrite (Hg _ Ef) in Eg; discriminate|].
  destruct (parse_results_file_b file) as [e|[[sn T]|]]; cbn in *; try discriminate;
    [|eexists; reflexivity].
  destruct (dt_le T (cutoff_date cfg)); [eexists; reflexivity|].
  destruct (check_firmware_version _ _); [eexists; reflexivity|].
  destruct (match_b sn T listing) as [e|s]; cbn in *; [discriminate|].
  injection H as H; destruct (after_match_quiet f g file s d H) as [d' H']; rewrite H'.
  eexists; reflexivity.
Qed.

Lemma admit_w_quiet listing f file d :
  admit_w f file listing = inr (d, []) ->
  forall g, knows f g -> exists d', admit_w g file listing = inr (d', []).
Proof.
  intros H g Hg; unfold admit_w in *.
  destruct (result_known g file) eqn:Eg; [eexists; reflexivity|].
  destruct (result_known f file) eqn:Ef; [rewrite (Hg _ Ef) in Eg; discriminate|].
  destruct (parse_results_file_w file) as [e|[[sn T]|]]; cbn in *; try discriminate;
    [|eexists; reflexivity].
  destruct (match_w sn T listing) as [e|s]; cbn in *; [discriminate|].
  injection H as H; destruct (after_match_quiet f g file s d H) as [d' H']; rewrite H'.
  eexists; reflexivity.
Qed.

Lemma process_b_done cfg listing f item d ops :
  process_b cfg listing f item = inr (d, ops) -> ops <> [] ->
  forall g, knows (apply_ops f ops) g -> exists d', process_b cfg listing g item = inr (d', []).
Proof.
  destruct item as [file content]; unfold process_b.
  destruct (negb _); intros H Hne g Hg; [injection H; intros; subst; congruence|].
  eapply admit_b_done; eauto.
Qed.

Lemma process_b_quiet cfg listing f item d :
  process_b cfg listing f item = inr (d, []) ->
  forall g, knows f g -> exists d', process_b cfg listing g item = inr (d', []).
Proof.
  destruct item as [file content]; unfold process_b.
  destruct (negb _); intros H g Hg; [eexists; reflexivity|].
  eapply admit_b_quiet; eauto.
Qed.

Lemma main_b_idem cfg f results listing f1 ops :
  main_b cfg f results listing = (f1, ops, None) ->
  forall g, knows f1 g -> main_b cfg g results listing = (g, [], None).
Proof.
  unfold main_b; apply run_items_idem.
  - intros f' it d ops' H Hne g Hg; eapply process_b_done; eauto.
  - intros f' it d H g Hg; eapply process_b_quiet; eauto.
Qed.

Lemma cycle_w_idem (sources : list source) : forall f f1 ops,
  cycle_w f sources = (f1, ops, None) ->
  forall g, knows f1 g -> cycle_w g sources = (g, [], None).
Proof.
  induction sources as [|[[results|] [data|]] rest IH]; intros f f1 ops H g Hg;
    cbn [cycle_w] in *; try (eapply IH; eauto; fail); [reflexivity|].
  destruct (run_items (fun f' file => admit_w f' file data) f results) as [[fa opsa] ea] eqn:Ra.
  destruct ea as [e|]; [discriminate|].
  pose proof (cycle_w_knows rest fa) as K.
  destruct (cycle_w fa rest) as [[fb opsb] eb] eqn:Rb.
  injection H as -> _ ->; cbn in K.
  rewrite (run_items_idem (fun f' file => admit_w f' file data)
             (fun f' file d ops H Hne g Hg => admit_w_done data f' file d ops H Hne g Hg)
             (fun f' file d H g Hg => admit_w_quiet data f' file d H g Hg)
             results f fa opsa Ra g (knows_trans _ _ _ K Hg)).
  rewrite (IH fa f1 opsb Rb g Hg); reflexivity.
Qed.

End LoopFacts.
Import LoopFacts.

(** ** One step of either loop *)
Module StepFacts.

Lemma match_b_selected sn T listing t :
  match_b sn T listing = inr (Selected t) ->
  exists S_, In t listing /\ endswith (lit ".csv") t = true /\
    parse_test_file_b t = inr (Some (sn, S_)) /\ dt_lt S_ T = true /\
    (dt_key T - 3 * 86400 <= dt_key S_)%Z /\
    forall t' S', In t' listing -> endswith (lit ".csv") t' = true ->
      parse_test_file_b t' = inr (Some (sn, S')) -> dt_lt S' T = true ->
      (dt_key S' <= dt_key S_)%Z.
Proof.
  unfold match_b; rewrite minus_days_3.
  destruct (toordinal T <=? 3)%Z; cbv beta iota delta [bind ret raise]; [discriminate|].
  destruct (candidates_b sn T listing) as [e|c] eqn:Ec; [discriminate|].
  intro H; injection H as H.
  destruct (select_selected c _ t H) as (S_ & Hin & Hk & Hmax).
  destruct (candidates_b_mem sn T listing c t S_ Ec Hin) as (A & B & C & D).
  exists S_; repeat split; auto.
  intros t' S' H1 H2 H3 H4.
  exact (Hmax (t', S') (candidates_b_complete sn T listing c t' S' Ec H1 H2 H3 H4)).
Qed.

Lemma match_w_selected sn T listing t :
  match_w sn T listing = inr (Selected t) ->
  exists S_, In t listing /\
    parse_test_file_w t = inr (Some (sn, S_)) /\ dt_le S_ T = true /\
    (dt_key T - 3 * 86400 <= dt_key S_)%Z /\
    forall t' S', In t' listing ->
      parse_test_file_w t' = inr (Some (sn, S')) -> dt_le S' T = true ->
      (dt_key S' <= dt_key S_)%Z.
Proof.
  unfold match_w; rewrite minus_days_3.
  destruct (toordinal T <=? 3)%Z; cbv beta iota delta [bind ret raise]; [discriminate|].
  destruct (candidates_w sn T listing) as [e|c] eqn:Ec; [discriminate|].
  intro H; injection H as H.
  destruct (select_selected c _ t H) as (S_ & Hin & Hk & Hmax).
  destruct (candidates_w_mem sn T listing c t S_ Ec Hin) as (A & C & D).
  exists S_; repeat split; auto.
  intros t' S' H1 H3 H4.
  exact (Hmax (t', S') (candidates_w_complete sn T listing c t' S' Ec H1 H3 H4)).
Qed.

Lemma admit_b_staged_facts cfg f file content listing d ops t :
  admit_b cfg f file content listing = inr (d, ops) ->
  (d = StagedBoth t \/ d = StagedResultOnly t) ->
  result_known f file = false /\
  exists sn T, parse_results_file_b file = inr (Some (sn, T)) /\
    dt_le T (cutoff_date cfg) = false /\
    check_firmware_version (excluded_firmware cfg) content = false /\
    match_b sn T listing = inr (Selected t).
Proof.
  unfold admit_b; intros H Hd.
  destruct (result_known f file) eqn:Ek;
    [injection H as <- _; destruct Hd; discriminate|split; [reflexivity|]].
  destruct (parse_results_file_b file) as [e|[[sn T]|]]; cbv beta iota delta [bind ret raise] in H;
    [discriminate| |injection H as <- _; destruct Hd; discriminate].
  destruct (dt_le T (cutoff_date cfg)) eqn:Ed; [injection H as <- _; destruct Hd; discriminate|].
  destruct (check_firmware_version _ _) eqn:Ef; [injection H as <- _; destruct Hd; discriminate|].
  destruct (match_b sn T listing) as [e|s] eqn:Em; [discriminate|].
  injection H as H; rewrite (after_match_selected f file s d ops t H Hd) in Em.
  exists sn, T; auto.
Qed.

Lemma admit_w_staged_facts f file listing d ops t :
  admit_w f file listing = inr (d, ops) ->
  (d = StagedBoth t \/ d = StagedResultOnly t) ->
  result_known f file = false /\
  exists sn T, parse_results_file_w file = inr (Some (sn, T)) /\
    match_w sn T listing = inr (Selected t).
Proof.
  unfold admit_w; intros H Hd.
  destruct (result_known f file) eqn:Ek;
    [injection H as <- _; destruct Hd; discriminate|split; [reflexivity|]].
  destruct (parse_results_file_w file) as [e|[[sn T]|]]; cbv beta iota delta [bind ret raise] in H;
    [discriminate| |injection H as <- _; destruct Hd; discriminate].
  destruct (match_w sn T listing) as [e|s] eqn:Em; [discriminate|].
  injection H as H; rewrite (after_match_selected f file s d ops t H Hd) in Em.
  exists sn, T; auto.
Qed.

(** The tallies of the batch [main]. *)
Definition tallied (c : counters) : nat :=
  files_copied c + files_skipped_date c + files_skipped_firmware c + files_already_exist c.

Lemma count_b_copied c d : files_copied (count_b c d) = (files_copied c + count_w 0 d)%nat.
Proof. destruct d; cbn; lia. Qed.

Lemma count_b_tallied c d : (tallied (count_b c d) <= S (tallied c))%nat.
Proof. unfold tallied; destruct d; cbn; lia. Qed.

Lemma run_items_tally_b cfg listing (items : list (str * file_content)) : forall f c,
  let '(_, ops, c', _) := run_items_tally (process_b cfg listing) count_b f items c in
  files_copied c' = (files_copied c + result_copies ops)%nat /\
  (tallied c' <= tallied c + length (filter (fun it => endswith (lit ".csv") (fst it)) items))%nat.
Proof.
  induction items as [|[file content] rest IH]; intros f c; cbn [run_items_tally]; [cbn; lia|].
  destruct (process_b cfg listing f (file, content)) as [e|[d ops]] eqn:Hs; [cbn [filter]; destruct (endswith _ _); cbn; lia|].
  specialize (IH (apply_ops f ops) (count_b c d)).
  destruct (run_items_tally (process_b cfg listing) count_b (apply_ops f ops) rest (count_b c d))
    as [[[f' ops'] c'] e].
  destruct IH as [IH1 IH2].
  assert (Hc : count_w 0 d = result_copies ops).
  { revert Hs; unfold process_b; destruct (negb _); [intro H; injection H as <- <-; reflexivity|].
    apply admit_b_count. }
  split; [rewrite IH1, result_copies_app, count_b_copied, Hc; lia|].
  cbn [filter fst]; destruct (endswith (lit ".csv") file) eqn:Ecsv.
  - pose proof (count_b_tallied c d); cbn [length]; lia.
  - unfold process_b in Hs; rewrite Ecsv in Hs; cbn in Hs; injection Hs as <- <-.
    change (count_b c NotCsv) with c in IH2; exact IH2.
Qed.

End StepFacts.
Import StepFacts.

(** ** The cutoff date *)
Module CutoffFacts.

Definition midnight (t : datetime) : datetime := mkdt (year t) (month t) (day t) 0 0 0.

Lemma fmt_rx_date : fmt_rx fmt_date = [rx_Y; ch "-"; rx_m; ch "-"; rx_d].
Proof. reflexivity. Qed.

Lemma rmatch_date y m d :
  (1 <= m <= 12 /\ 1 <= d <= 31)%Z ->
  rmatch (rx_seq (fmt_rx fmt_date)) (four y ++ "-"%char :: two m ++ "-"%char :: two d ++ [])
    [] (fun rest _ cs => Some (rest, cs))
  = Some ([], [("d"%char, two d); ("m"%char, two m); ("Y"%char, four y)]).
Proof. intro B; rewrite fmt_rx_date; cbn [rx_seq]; chain_fields. Qed.

Lemma valid_midnight t : valid_dt t = true -> valid_dt (midnight t) = true.
Proof.
  unfold valid_dt, midnight; cbn [year month day hour minute second].
  rewrite !andb_true_iff; intuition reflexivity.
Qed.

Lemma CUTOFF_DATE_ok t : valid_dt t = true -> CUTOFF_DATE (date_field t) = Some (midnight t).
Proof.
  intro Hv; pose proof (valid_midnight t Hv) as Hv0; pose proof (valid_dt_bounds t Hv) as B.
  destruct t as [y m d h mi s]; cbn [year month day hour minute second] in B.
  unfold CUTOFF_DATE, strptime.
  change (date_field (mkdt y m d h mi s))
    with (four y ++ "-"%char :: two m ++ "-"%char :: two d ++ []).
  rewrite rmatch_date by lia.
  cbv beta iota zeta.
  unfold cap_int; cbn [lookup_cap Ascii.eqb Bool.eqb].
  rewrite py_int_four, !py_int_two by lia.
  unfold midnight in *; cbn [year month day] in *.
  rewrite Hv0; reflexivity.
Qed.

End CutoffFacts.
Import CutoffFacts.

(** ** Results files are copied at most once *)
Module ResultFacts.

(** How many times the ops copy [x] into to_process/results. *)
Definition copies_of_result (x : str) (ops : list op) : nat :=
  length (filter (fun o => match o with CopyResult n => str_eqb n x | CopyTest _ => false end) ops).

Lemma copies_of_result_app x a b :
  copies_of_result x (a ++ b) = (copies_of_result x a + copies_of_result x b)%nat.
Proof. unfold copies_of_result; rewrite filter_app, length_app; reflexivity. Qed.

(** The ops of one step: nothing, or the copy of a results file that was
    not known, maybe after the copy of a session. *)
Definition result_step (f : fs) (ops : list op) : Prop :=
  ops = [] \/ exists file, result_known f file = false /\
    (ops = [CopyResult file] \/ exists t, ops = [CopyTest t; CopyResult file]).

Lemma admit_b_result_step cfg f file content listing d ops :
  admit_b cfg f file content listing = inr (d, ops) -> result_step f ops.
Proof.
  intro H; pose proof (admit_b_shape _ _ _ _ _ _ _ H) as Sh.
  unfold admit_b in H; destruct (result_known f file) eqn:Ek.
  - injection H as _ <-; left; reflexivity.
  - destruct Sh as [->|[->|[t [_ ->]]]]; [left; reflexivity| |]; right; exists file; eauto.
Qed.

Lemma admit_w_result_step f file listing d ops :
  admit_w f file listing = inr (d, ops) -> result_step f ops.
Proof.
  intro H; pose proof (admit_w_shape _ _ _ _ _ H) as Sh.
  unfold admit_w in H; destruct (result_known f file) eqn:Ek.
  - injection H as _ <-; left; reflexivity.
  - destruct Sh as [->|[->|[t [_ ->]]]]; [left; reflexivity| |]; right; exists file; eauto.
Qed.

Lemma process_b_result_step cfg listing f item d ops :
  process_b cfg listing f item = inr (d, ops) -> result_step f ops.
Proof.
  destruct item as [file content]; unfold process_b; destruct (negb _); intro H.
  - injection H as _ <-; left; reflexivity.
  - eapply admit_b_result_step; exact H.
Qed.

(** From [f] to [f'] with the ops [ops], the results file [x] is copied at
    most once, never when already known, and stays known. *)
Definition rbound (x : str) (f f' : fs) (ops : list op) : Prop :=
  (copies_of_result x ops <= (if result_known f x then 0 else 1))%nat
  /\ (copies_of_result x ops = 0 \/ result_known f' x = true)
  /\ (result_known f x = true -> result_known f' x = true).

Lemma rbound_nil x f : rbound x f f [].
Proof. unfold rbound, copies_of_result; cbn; split; [lia|split; auto]. Qed.

Lemma rbound_app x f f1 f2 ops1 ops2 :
  rbound x f f1 ops1 -> rbound x f1 f2 ops2 -> rbound x f f2 (ops1 ++ ops2).
Proof.
  unfold rbound; rewrite copies_of_result_app; intros [B1 [K1 M1]] [B2 [K2 M2]].
  destruct (result_known f x) eqn:E.
  - rewrite (M1 eq_refl) in B2; repeat split; [lia| |auto].
    destruct K2; [left; lia|right; auto].
  - destruct K1 as [K1|K1].
    + rewrite K1; repeat split; [destruct (result_known f1 x); lia| |discriminate].
      destruct K2; [left; lia|right; auto].
    + rewrite K1 in B2; repeat split; [lia| right; auto |discriminate].
Qed.

Lemma result_step_rbound x f ops : result_step f ops -> rbound x f (apply_ops f ops) ops.
Proof.
  intros [->|[file [Hk Hops]]]; [apply rbound_nil|].
  assert (Kf : result_known (apply_ops f ops) file = true)
    by (apply result_known_after_copy; destruct Hops as [->|[t ->]]; cbn; auto).
  assert (C : copies_of_result x ops = if str_eqb file x then 1 else 0)
    by (destruct Hops as [->|[t ->]]; unfold copies_of_result; cbn; destruct (str_eqb file x); reflexivity).
  unfold rbound; rewrite C; split; [|split; [|apply result_known_apply_ops]].
  - destruct (str_eqb file x) eqn:E; [|destruct (result_known f x); lia].
    apply str_eqb_eq in E; subst file; rewrite Hk; lia.
  - destruct (str_eqb file x) eqn:E; [|left; reflexivity].
    apply str_eqb_eq in E; subst file; right; exact Kf.
Qed.

Lemma run_items_rbound {I} (step : fs -> I -> res (decision * list op))
  (step_ok : forall f it d ops, step f it = inr (d, ops) -> result_step f ops)
  (items : list I) : forall f x,
  rbound x f (fst (fst (run_items step f items))) (snd (fst (run_items step f items))).
Proof.
  induction items as [|it rest IH]; intros f x; cbn [run_items]; [apply rbound_nil|].
  destruct (step f it) as [e|[d ops]] eqn:Hs; [apply rbound_nil|].
  pose proof (result_step_rbound x f ops (step_ok _ _ _ _ Hs)) as B1.
  specialize (IH (apply_ops f ops) x).
  destruct (run_items step (apply_ops f ops) rest) as [[f' ops'] e]; cbn [fst snd] in *.
  eapply rbound_app; eauto.
Qed.

Lemma cycle_w_rbound (sources : list source) : forall f x,
  rbound x f (fst (fst (cycle_w f sources))) (snd (fst (cycle_w f sources))).
Proof.
  induction sources as [|[[results|] [data|]] rest IH]; intros f x; cbn [cycle_w];
    try apply rbound_nil; try apply IH.
  pose proof (run_items_rbound (fun f' file => admit_w f' file data)
                (fun f' file d ops H => admit_w_result_step f' file data d ops H) results f x) as B1.
  destruct (run_items _ f results) as [[f1 ops1] e1]; cbn [fst snd] in B1.
  destruct e1 as [e|]; [exact B1|].
  specialize (IH f1 x).
  destruct (cycle_w f1 rest) as [[f2 ops2] e2]; cbn [fst snd] in *.
  eapply rbound_app; eauto.
Qed.

Lemma run_w_rbound (cycles : list (list source)) : forall f x,
  rbound x f (fst (run_w f cycles)) (snd (run_w f cycles)).
Proof.
  induction cycles as [|c cs IH]; intros f x; cbn [run_w]; [apply rbound_nil|].
  pose proof (cycle_w_rbound c f x) as B1.
  destruct (cycle_w f c) as [[f1 ops1] e1]; cbn [fst snd] in B1.
  specialize (IH f1 x).
  destruct (run_w f1 cs) as [f2 ops2]; cbn [fst snd] in *.
  eapply rbound_app; eauto.
Qed.

End ResultFacts.
Import ResultFacts.

(** ** What makes the sniffer exclude a file *)
Module SnifferFacts.

(** A row [csv.reader] read without error, with at most three fields. *)
Definition short_row (r : row_item) : Prop := exists cells, r = Row cells /\ (length cells <= 3)%nat.

Lemma scan_rows_true excluded rows :
  scan_rows excluded rows = inr true <->
  exists pre row rest, rows = pre ++ Row row :: rest /\ Forall short_row pre /\
    (3 < length row)%nat /\ strip (nth 3 row []) = excluded.
Proof.
  induction rows as [|[cells|] rows IH]; cbn [scan_rows].
  - split; [discriminate|intros (pre & row & rest & E & _); destruct pre; discriminate].
  - destruct (3 <? length cells)%nat eqn:L.
    + apply Nat.ltb_lt in L.
      split.
      * destruct (str_eqb (strip (nth 3 cells [])) excluded) eqn:E; intro H; [|discriminate].
        apply str_eqb_eq in E; exists [], cells, rows; auto.
      * intros (pre & row & rest & E & F & Lr & Hs).
        destruct pre as [|p pre]; cbn in E; injection E as E1 E2.
        -- subst row; apply str_eqb_eq in Hs; rewrite Hs; reflexivity.
        -- subst p; inversion F as [|? ? [c [Ec Lc]]]; injection Ec as <-; lia.
    + apply Nat.ltb_ge in L; rewrite IH.
      split.
      * intros (pre & row & rest & E & F & Lr & Hs).
        exists (Row cells :: pre), row, rest; rewrite E; repeat split; auto.
        constructor; [exists cells; auto|exact F].
      * intros (pre & row & rest & E & F & Lr & Hs).
        destruct pre as [|p pre]; cbn in E; injection E as E1 E2; [subst row; lia|].
        subst p; inversion F; subst; exists pre, row, rest; auto.
  - split; [discriminate|].
    intros (pre & row & rest & E & F & _).
    destruct pre as [|p pre]; cbn in E; injection E as E1 E2; [discriminate|].
    subst p; inversion F as [|? ? [c [Ec _]]]; discriminate.
Qed.

End SnifferFacts.
Import SnifferFacts.

(** ** The latest session before a result *)
Module LatestFacts.

Lemma toordinal_pos t : valid_dt t = true -> (1 <= toordinal t)%Z.
Proof.
  intro Hv; pose proof (valid_dt_bounds t Hv) as B.
  unfold toordinal, days_before_year, days_before_month.
  set (y' := (year t - 1)%Z).
  assert (D1 : (y' / 100 <= y' / 4)%Z) by (apply Z.div_le_compat_l; lia).
  assert (D2 : (0 <= y' / 400)%Z) by (apply Z.div_pos; lia).
  assert (D3 : (0 <= nth (Z.to_nat (month t - 1))
                  [0; 31; 59; 90; 120; 151; 181; 212; 243; 273; 304; 334] 0)%Z).
  { destruct (nth_in_or_default (Z.to_nat (month t - 1))
                [0; 31; 59; 90; 120; 151; 181; 212; 243; 273; 304; 334]%Z 0%Z) as [Hi| ->];
      [|lia].
    cbn [In] in Hi; intuition lia. }
  destruct (_ && _); lia.
Qed.

Lemma key_with_second0 t : dt_key (with_second t 0) = (dt_key t - second t)%Z.
Proof. unfold dt_key, with_second, toordinal; cbn [year month day hour minute second]; lia. Qed.

Lemma key_toordinal t : valid_dt t = true ->
  (toordinal t * 86400 <= dt_key t < toordinal t * 86400 + 86400)%Z.
Proof. intro Hv; pose proof (valid_dt_bounds t Hv); unfold dt_key; lia. Qed.

(** [select] picks a candidate that beats every other one. *)
Lemma select_unique_max cands k t S_ :
  In (t, S_) cands -> (k <= dt_key S_)%Z ->
  (forall y, In y cands -> y = (t, S_) \/ (dt_key (snd y) < dt_key S_)%Z) ->
  select cands k = Selected t.
Proof.
  intros Hin Hk Hall; unfold select.
  destruct (py_max cands) as [m|] eqn:E; [|destruct cands; [destruct Hin|discriminate]].
  apply py_max_spec in E as (pre & post & Ec & F1 & F2).
  assert (Hm : In m cands) by (rewrite Ec; apply in_or_app; right; left; reflexivity).
  assert (Hle : (dt_key S_ <= key m)%Z).
  { rewrite Ec in Hin; apply in_app_or in Hin as [Hy|[Hy|Hy]].
    - rewrite Forall_forall in F1; specialize (F1 _ Hy); unfold key in *; cbn [snd] in *; lia.
    - rewrite Hy; unfold key; cbn [snd]; lia.
    - rewrite Forall_forall in F2; specialize (F2 _ Hy); unfold key in *; cbn [snd] in *; lia. }
  destruct (Hall m Hm) as [->|Hlt]; [|unfold key in Hle; lia].
  apply Z.leb_le in Hk; rewrite Hk; reflexivity.
Qed.

Lemma endswith_app_suffix (p suf : str) : endswith suf (p ++ suf) = true.
Proof.
  unfold endswith; rewrite length_app.
  replace (length p + length suf - length suf)%nat with (length p) by lia.
  rewrite skipn_app_len; apply str_eqb_refl.
Qed.

Lemma test_name_hm_csv sn t : endswith (lit ".csv") (test_name_hm sn t) = true.
Proof.
  unfold test_name_hm, result_name_hm; rewrite !app_assoc; apply endswith_app_suffix.
Qed.

Section Three.
Variables (sn : str) (T S1 S2 S4 : datetime).
Hypotheses (Hg : good_sn sn = true) (HT : valid_dt T = true)
  (H1 : valid_dt S1 = true) (H2 : valid_dt S2 = true) (H4 : valid_dt S4 = true)
  (K1 : dt_key S1 = (dt_key T - 3600)%Z) (K2 : dt_key S2 = (dt_key T - 2 * 86400)%Z)
  (K4 : dt_key S4 = (dt_key T - 4 * 86400)%Z).

Lemma three_toordinal : (toordinal T <=? 3)%Z = false.
Proof.
  pose proof (toordinal_pos S4 H4); pose proof (key_toordinal S4 H4);
  pose proof (key_toordinal T HT).
  apply Z.leb_gt; nia.
Qed.

Lemma three_names_nodup :
  NoDup [test_name_hm sn S4; test_name_hm sn S2; test_name_hm sn S1].
Proof.
  pose proof (codec_facts sn S1 Hg H1) as (_ & _ & _ & P1 & _).
  pose proof (codec_facts sn S2 Hg H2) as (_ & _ & _ & P2 & _).
  pose proof (codec_facts sn S4 Hg H4) as (_ & _ & _ & P4 & _).
  pose proof (valid_dt_bounds S1 H1); pose proof (valid_dt_bounds S2 H2);
  pose proof (valid_dt_bounds S4 H4).
  pose proof (key_with_second0 S1); pose proof (key_with_second0 S2);
  pose proof (key_with_second0 S4).
  assert (N : forall a b, test_name_hm sn a = test_name_hm sn b ->
                parse_test_file_w (test_name_hm sn a) = inr (Some (sn, with_second a 0)) ->
                parse_test_file_w (test_name_hm sn b) = inr (Some (sn, with_second b 0)) ->
                dt_key (with_second a 0) = dt_key (with_second b 0))
    by (intros a b E Pa Pb; rewrite E in Pa; rewrite Pa in Pb; congruence).
  repeat constructor; cbn [In]; intros Hin; repeat destruct Hin as [Hin|Hin]; try exact Hin.
  all: first [ pose proof (N _ _ Hin P4 P2) | pose proof (N _ _ Hin P2 P4)
             | pose proof (N _ _ Hin P4 P1) | pose proof (N _ _ Hin P1 P4)
             | pose proof (N _ _ Hin P2 P1) | pose proof (N _ _ Hin P1 P2) ];
    rewrite !key_with_second0 in *; pose proof (valid_dt_bounds _ H1);
    pose proof (valid_dt_bounds _ H2); pose proof (valid_dt_bounds _ H4); lia.
Qed.

Lemma three_in l t : Permutation l [test_name_hm sn S4; test_name_hm sn S2; test_name_hm sn S1] ->
  In t l <-> t = test_name_hm sn S4 \/ t = test_name_hm sn S2 \/ t = test_name_hm sn S1.
Proof.
  intro Hp; split; intro H.
  - apply (Permutation_in _ Hp) in H; cbn in H; intuition.
  - apply (Permutation_in _ (Permutation_sym Hp)); cbn; intuition.
Qed.

Lemma three_b l : Permutation l [test_name_hm sn S4; test_name_hm sn S2; test_name_hm sn S1] ->
  match_b sn T l = inr (Selected (test_name_hm sn S1)).
Proof.
  intro Hp.
  pose proof (codec_facts sn S1 Hg H1) as (_ & _ & _ & _ & _ & _ & P1 & _).
  pose proof (codec_facts sn S2 Hg H2) as (_ & _ & _ & _ & _ & _ & P2 & _).
  pose proof (codec_facts sn S4 Hg H4) as (_ & _ & _ & _ & _ & _ & P4 & _).
  pose proof (valid_dt_bounds S1 H1); pose proof (valid_dt_bounds S2 H2);
  pose proof (valid_dt_bounds S4 H4).
  pose proof (key_with_second0 S1); pose proof (key_with_second0 S2);
  pose proof (key_with_second0 S4).
  unfold match_b; rewrite minus_days_3, three_toordinal; cbv beta iota delta [bind ret].
  destruct (candidates_b_total sn T l) as [c Hc]; rewrite Hc; f_equal.
  apply (select_unique_max c _ _ (with_second S1 0)).
  - apply (candidates_b_complete sn T l c); [exact Hc| |apply test_name_hm_csv|exact P1|].
    + apply (three_in l _ Hp); auto.
    + unfold dt_lt; apply Z.ltb_lt; lia.
  - lia.
  - intros [t S_] Hy.
    destruct (candidates_b_mem sn T l c t S_ Hc Hy) as (Hl & _ & Hpt & _).
    apply (three_in l _ Hp) in Hl as [ -> | [ -> | -> ]]; cbn [snd].
    + rewrite P4 in Hpt; injection Hpt as <-; right; lia.
    + rewrite P2 in Hpt; injection Hpt as <-; right; lia.
    + rewrite P1 in Hpt; injection Hpt as <-; left; reflexivity.
Qed.

Lemma three_w l : Permutation l [test_name_hm sn S4; test_name_hm sn S2; test_name_hm sn S1] ->
  match_w sn T l = inr (Selected (test_name_hm sn S1)).
Proof.
  intro Hp.
  pose proof (codec_facts sn S1 Hg H1) as (_ & _ & _ & P1 & _).
  pose proof (codec_facts sn S2 Hg H2) as (_ & _ & _ & P2 & _).
  pose proof (codec_facts sn S4 Hg H4) as (_ & _ & _ & P4 & _).
  pose proof (valid_dt_bounds S1 H1); pose proof (valid_dt_bounds S2 H2);
  pose proof (valid_dt_bounds S4 H4).
  pose proof (key_with_second0 S1); pose proof (key_with_second0 S2);
  pose proof (key_with_second0 S4).
  unfold match_w; rewrite minus_days_3, three_toordinal; cbv beta iota delta [bind ret].
  destruct (candidates_w_total sn T l) as [c Hc]; rewrite Hc; f_equal.
  apply (select_unique_max c _ _ (with_second S1 0)).
  - apply (candidates_w_complete sn T l c); [exact Hc| |exact P1|].
    + apply (three_in l _ Hp); auto.
    + unfold dt_le; apply Z.leb_le; lia.
  - lia.
  - intros [t S_] Hy.
    destruct (candidates_w_mem sn T l c t S_ Hc Hy) as (Hl & Hpt & _).
    apply (three_in l _ Hp) in Hl as [ -> | [ -> | -> ]]; cbn [snd].
    + rewrite P4 in Hpt; injection Hpt as <-; right; lia.
    + rewrite P2 in Hpt; injection Hpt as <-; right; lia.
    + rewrite P1 in Hpt; injection Hpt as <-; left; reflexivity.
Qed.

End Three.

End LatestFacts.
Import LatestFacts.

(** ** Claims *)

(** C1: when the result file name is already in to_process/results or
    processed/results, the admit step of either variant returns
    [AlreadyExists] and makes no copy; in particular, right after a run that
    copied the result file, a second run with the same inputs returns
    [AlreadyExists] and copies nothing. *)
Theorem admit_already_exists_no_writes :
  (forall cfg f file content listing, result_known f file = true ->
     admit_b cfg f file content listing = inr (AlreadyExists, [])) /\
  (forall f file listing, result_known f file = true ->
     admit_w f file listing = inr (AlreadyExists, [])) /\
  (forall cfg f file content listing d ops,
     admit_b cfg f file content listing = inr (d, ops) -> ops <> [] ->
     admit_b cfg (apply_ops f ops) file content listing = inr (AlreadyExists, [])) /\
  (forall f file listing d ops,
     admit_w f file listing = inr (d, ops) -> ops <> [] ->
     admit_w (apply_ops f ops) file listing = inr (AlreadyExists, [])).
Proof.
  assert (Hb : forall cfg f file content listing, result_known f file = true ->
             admit_b cfg f file content listing = inr (AlreadyExists, []))
    by (intros; unfold admit_b; rewrite H; reflexivity).
  assert (Hw : forall f file listing, result_known f file = true ->
             admit_w f file listing = inr (AlreadyExists, []))
    by (intros; unfold admit_w; rewrite H; reflexivity).
  split; [exact Hb|split; [exact Hw|split]].
  - intros cfg f file content listing d ops H Hne; apply Hb.
    eapply shape_result_known; [eapply admit_b_shape; exact H | exact Hne].
  - intros f file listing d ops H Hne; apply Hw.
    eapply shape_result_known; [eapply admit_w_shape; exact H | exact Hne].
Qed.

Lemma admit_already_exists_no_writes_witness :
  result_known fs_staged0 result0 = true /\
  admit_b cfg0 fs_staged0 result0 content_ok [sess_1h] = inr (AlreadyExists, []) /\
  admit_w fs_staged0 result0 [sess_1h] = inr (AlreadyExists, []) /\
  admit_b cfg0 (apply_ops empty_fs [CopyTest sess_1h; CopyResult result0]) result0 content_ok [sess_1h]
    = inr (AlreadyExists, []) /\
  admit_w (apply_ops empty_fs [CopyTest sess_1h; CopyResult result0]) result0 [sess_1h]
    = inr (AlreadyExists, []).
Proof.
  destruct admit_already_exists_no_writes as [Hb [Hw [Hb2 Hw2]]].
  split; [vm_compute; reflexivity|].
  split; [apply Hb; vm_compute; reflexivity|].
  split; [apply Hw; vm_compute; reflexivity|].
  split.
  - apply (Hb2 cfg0 empty_fs result0 content_ok [sess_1h] (StagedBoth sess_1h));
      [vm_compute; reflexivity | discriminate].
  - apply (Hw2 empty_fs result0 [sess_1h] (StagedBoth sess_1h));
      [vm_compute; reflexivity | discriminate].
Defined.

(** C7: when the matched session file is already in to_process/tests or
    processed/tests, admitting a result copies only the result file and
    returns [StagedResultOnly] (both variants); and over a whole batch run,
    or any sequence of polling cycles, a session file is copied at most
    once, and never when it was already staged or archived. *)
Theorem session_copied_at_most_once :
  (forall cfg f file content listing d ops t,
     admit_b cfg f file content listing = inr (d, ops) ->
     (d = StagedBoth t \/ d = StagedResultOnly t) -> test_known f t = true ->
     d = StagedResultOnly t /\ ops = [CopyResult file]) /\
  (forall f file listing d ops t,
     admit_w f file listing = inr (d, ops) ->
     (d = StagedBoth t \/ d = StagedResultOnly t) -> test_known f t = true ->
     d = StagedResultOnly t /\ ops = [CopyResult file]) /\
  (forall cfg f results listing t,
     (copies_of_test t (snd (fst (main_b cfg f results listing)))
      <= (if test_known f t then 0 else 1))%nat) /\
  (forall f cycles t,
     (copies_of_test t (snd (run_w f cycles)) <= (if test_known f t then 0 else 1))%nat).
Proof.
  split; [|split; [|split]].
  - intros cfg f file content listing d ops t H Hd Hk.
    pose proof (admit_b_staged _ _ _ _ _ _ _ t H Hd) as E.
    rewrite stage_known in E by exact Hk; injection E; auto.
  - intros f file listing d ops t H Hd Hk.
    pose proof (admit_w_staged _ _ _ _ _ t H Hd) as E.
    rewrite stage_known in E by exact Hk; injection E; auto.
  - intros cfg f results listing t; unfold main_b.
    apply (run_items_bound (process_b cfg listing) (process_b_shape cfg listing)).
  - intros f cycles t; apply run_w_bound.
Qed.

Lemma session_copied_at_most_once_witness :
  admit_b cfg0 fs_session_staged result0 content_ok [sess_1h]
    = inr (StagedResultOnly sess_1h, [CopyResult result0]) /\
  admit_w fs_session_staged result0 [sess_1h]
    = inr (StagedResultOnly sess_1h, [CopyResult result0]) /\
  (copies_of_test sess_1h
     (snd (fst (main_b cfg0 empty_fs [(result0, content_ok); (result1, content_ok)] [sess_1h])))
   <= 1)%nat /\
  (copies_of_test sess_1h
     (snd (run_w empty_fs [[(Some [result0], Some [sess_1h])]; [(Some [result1], Some [sess_1h])]]))
   <= 1)%nat.
Proof.
  destruct session_copied_at_most_once as [Hb [Hw [Hm Hr]]].
  split; [|split; [|split]].
  - destruct (Hb cfg0 fs_session_staged result0 content_ok [sess_1h]
                (StagedResultOnly sess_1h) [CopyResult result0] sess_1h) as [_ E];
      [vm_compute; reflexivity | right; reflexivity | vm_compute; reflexivity |].
    vm_compute; reflexivity.
  - destruct (Hw fs_session_staged result0 [sess_1h]
                (StagedResultOnly sess_1h) [CopyResult result0] sess_1h) as [_ E];
      [vm_compute; reflexivity | right; reflexivity | vm_compute; reflexivity |].
    vm_compute; reflexivity.
  - exact (Hm cfg0 empty_fs _ [sess_1h] sess_1h).
  - exact (Hr empty_fs _ sess_1h).
Defined.

(** C2 (counterexample): the claim that a result file whose attribute
    (column 3 of the first data row) is the excluded value is never staged,
    in both variants, fails: the polling loop stages such a file, and so
    does the batch variant when the header row has only three columns. *)
Lemma excluded_attribute_never_staged_cex :
  ~ (forall cfg f file content listing,
       first_row_attribute content = Some (excluded_firmware cfg) ->
       never_staged (admit_b cfg f file content listing) /\ never_staged (admit_w f file listing)).
Proof.
  intro H.
  destruct (H cfg0 empty_fs result0 content_debug [sess_1h]) as [_ Hw];
    [vm_compute; reflexivity|].
  assert (E : admit_w empty_fs result0 [sess_1h]
              = inr (StagedBoth sess_1h, [CopyTest sess_1h; CopyResult result0]))
    by (vm_compute; reflexivity).
  discriminate (Hw _ _ E).
Qed.

(** C2 (amended): the batch variant never stages a result file whose
    header row and first data row both have more than three cells and whose
    first data row carries, after stripping, the excluded value in column 3,
    whatever its timestamp and the sessions available.  The polling loop
    has no attribute check: any new result file it parses and matches to a
    session is staged, the one above included.  And the batch variant stages
    a new, parsed, matched result file past the cutoff whose header row has
    at most three cells, whatever its first data row holds. *)
Theorem excluded_attribute_batch_only :
  (forall cfg f file hdr row rest listing,
     (3 < length hdr)%nat -> (3 < length row)%nat ->
     strip (nth 3 row []) = excluded_firmware cfg ->
     never_staged (admit_b cfg f file (Some (Row hdr :: Row row :: rest)) listing)) /\
  first_row_attribute content_debug = Some (excluded_firmware cfg0) /\
  admit_b cfg0 empty_fs result0 content_debug [sess_1h] = inr (SkippedFirmware, []) /\
  admit_w empty_fs result0 [sess_1h]
    = inr (StagedBoth sess_1h, [CopyTest sess_1h; CopyResult result0]) /\
  (forall f file listing sn T t,
     result_known f file = false ->
     parse_results_file_w file = inr (Some (sn, T)) ->
     match_w sn T listing = inr (Selected t) ->
     admit_w f file listing = inr (stage f file t)) /\
  (forall cfg f file hdr rows listing sn T t,
     (length hdr <= 3)%nat ->
     result_known f file = false ->
     parse_results_file_b file = inr (Some (sn, T)) ->
     dt_le T (cutoff_date cfg) = false ->
     match_b sn T listing = inr (Selected t) ->
     admit_b cfg f file (Some (Row hdr :: rows)) listing = inr (stage f file t)) /\
  first_row_attribute content_debug_narrow_header = Some (excluded_firmware cfg0) /\
  admit_b cfg0 empty_fs result0 content_debug_narrow_header [sess_1h]
    = inr (StagedBoth sess_1h, [CopyTest sess_1h; CopyResult result0]).
Proof.
  split.
  { intros cfg f file hdr row rest listing Hh Hr He d ops H.
    unfold admit_b in H.
    rewrite (check_excluded_first_row _ _ _ rest Hh Hr He) in H.
    destruct (result_known f file); [injection H; auto|].
    destruct (parse_results_file_b file) as [e|[[sn T]|]]; simpl in H;
      [discriminate| |injection H; auto].
    destruct (dt_le T (cutoff_date cfg)); injection H; auto. }
  split; [vm_compute; reflexivity|].
  split; [vm_compute; reflexivity|].
  split; [vm_compute; reflexivity|].
  split.
  { intros f file listing sn T t Hk Hp Hm.
    unfold admit_w; rewrite Hk, Hp; cbv beta iota delta [bind ret]; rewrite Hm.
    reflexivity. }
  split.
  { intros cfg f file hdr rows listing sn T t Hh Hk Hp Hc Hm.
    unfold admit_b; rewrite Hk, Hp; cbv beta iota delta [bind ret].
    rewrite Hc, (check_narrow_header _ _ rows Hh), Hm; reflexivity. }
  split; vm_compute; reflexivity.
Qed.

Lemma excluded_attribute_batch_only_witness :
  never_staged (admit_b cfg0 empty_fs result0 content_debug [sess_1h]) /\
  admit_w empty_fs result0 [sess_1h] = inr (stage empty_fs result0 sess_1h) /\
  admit_b cfg0 empty_fs result0 content_debug_narrow_header [sess_1h]
    = inr (stage empty_fs result0 sess_1h).
Proof.
  destruct excluded_attribute_batch_only as [H [_ [_ [_ [Hw [Hn _]]]]]].
  split; [|split].
  - apply (H cfg0 empty_fs result0 header4 [dev1; lit "2025-07-20"; lit "PASS"; lit " 9.9.9-debug "] []
             [sess_1h]); vm_compute; reflexivity.
  - apply (Hw empty_fs result0 [sess_1h] dev1 T0 sess_1h); vm_compute; reflexivity.
  - apply (Hn cfg0 empty_fs result0 header3 [Row [dev1; lit "2025-07-20"; lit "PASS"; debug_fw]]
             [sess_1h] dev1 T0 sess_1h); vm_compute; reflexivity.
Defined.

(** C3 (counterexample): with sessions at T-1h, T-2d and T-4d, neither
    matcher selects the one at T-2d. *)
Lemma matcher_selects_T_2d_cex :
  match_b dev1 T0 [sess_4d; sess_2d; sess_1h] <> inr (Selected sess_2d) /\
  match_w dev1 T0 [sess_4d; sess_2d; sess_1h] <> inr (Selected sess_2d).
Proof. split; vm_compute; discriminate. Qed.

(** C3 (amended): for any device id and any result time T, with sessions
    of that device at T-1h, T-2d and T-4d listed in any order, both matchers
    select the session at T-1h, the latest one before T (it lies within the
    three days), and not the one at T-2d, whose name differs. *)
Theorem matcher_selects_latest_before :
  forall sn T S1 S2 S4 l,
    good_sn sn = true -> valid_dt T = true ->
    valid_dt S1 = true -> valid_dt S2 = true -> valid_dt S4 = true ->
    dt_key S1 = (dt_key T - 3600)%Z -> dt_key S2 = (dt_key T - 2 * 86400)%Z ->
    dt_key S4 = (dt_key T - 4 * 86400)%Z ->
    Permutation l [test_name_hm sn S4; test_name_hm sn S2; test_name_hm sn S1] ->
    match_b sn T l = inr (Selected (test_name_hm sn S1)) /\
    match_w sn T l = inr (Selected (test_name_hm sn S1)) /\
    test_name_hm sn S1 <> test_name_hm sn S2.
Proof.
  intros sn T S1 S2 S4 l Hg HT H1 H2 H4 K1 K2 K4 Hp.
  split; [apply (three_b sn T S1 S2 S4); assumption|].
  split; [apply (three_w sn T S1 S2 S4); assumption|].
  assert (Hn : NoDup [test_name_hm sn S4; test_name_hm sn S2; test_name_hm sn S1])
    by (eapply three_names_nodup; eassumption).
  inversion Hn as [|? ? _ Hn1]; subst.
  inversion Hn1 as [|? ? Hn2 _]; subst.
  intros E; apply Hn2; left; exact E.
Qed.

Lemma matcher_selects_latest_before_witness :
  match_b dev1 T0 [sess_2d; sess_1h; sess_4d] = inr (Selected sess_1h) /\
  match_w dev1 T0 [sess_2d; sess_1h; sess_4d] = inr (Selected sess_1h) /\
  sess_1h <> sess_2d.
Proof.
  apply (matcher_selects_latest_before dev1 T0 T_1h T_2d T_4d);
    try (vm_compute; reflexivity).
  apply (perm_trans (l' := [sess_2d; sess_4d; sess_1h])); [apply perm_skip, perm_swap|apply perm_swap].
Defined.

(** C4 (counterexample): the comparison is not a configuration: no
    configuration makes the batch variant accept a session stamped at the
    very time of the result, which the polling loop accepts. *)
Lemma comparison_mode_configurable_cex :
  ~ (exists cfg, admit_b cfg empty_fs result0 content_ok [sess_eq]
                 = inr (StagedBoth sess_eq, [CopyTest sess_eq; CopyResult result0])) /\
  admit_w empty_fs result0 [sess_eq] = inr (StagedBoth sess_eq, [CopyTest sess_eq; CopyResult result0]).
Proof.
  split; [|vm_compute; reflexivity].
  intros [[cut exc] H].
  unfold admit_b in H.
  assert (E1 : result_known empty_fs result0 = false) by reflexivity.
  assert (E2 : parse_results_file_b result0 = inr (Some (dev1, T0))) by (vm_compute; reflexivity).
  assert (E3 : match_b dev1 T0 [sess_eq] = inr NoCandidate) by (vm_compute; reflexivity).
  rewrite E1, E2 in H; cbv beta iota delta [bind ret] in H; cbn [cutoff_date excluded_firmware] in H.
  destruct (dt_le T0 cut); [discriminate|].
  destruct (check_firmware_version exc content_ok); [discriminate|].
  rewrite E3 in H; discriminate.
Qed.

(** C4 (amended): the comparison is fixed per program: the batch variant
    keeps exactly the [.csv] names of the listing that parse as sessions of
    the device strictly before the result, the polling loop exactly the
    names that parse as sessions of the device at or before it; the configuration
    (cutoff date, excluded firmware) only gates a file before matching and
    does not change how it is matched. *)
Theorem comparison_fixed_per_program :
  (forall sn T listing cands t S_,
     candidates_b sn T listing = inr cands -> In (t, S_) cands ->
     In t listing /\ endswith (lit ".csv") t = true /\
     parse_test_file_b t = inr (Some (sn, S_)) /\ dt_lt S_ T = true) /\
  (forall sn T listing cands t S_,
     candidates_b sn T listing = inr cands -> In t listing ->
     endswith (lit ".csv") t = true -> parse_test_file_b t = inr (Some (sn, S_)) ->
     dt_lt S_ T = true -> In (t, S_) cands) /\
  (forall sn T listing cands t S_,
     candidates_w sn T listing = inr cands -> In (t, S_) cands ->
     In t listing /\ parse_test_file_w t = inr (Some (sn, S_)) /\ dt_le S_ T = true) /\
  (forall sn T listing cands t S_,
     candidates_w sn T listing = inr cands -> In t listing ->
     parse_test_file_w t = inr (Some (sn, S_)) -> dt_le S_ T = true -> In (t, S_) cands) /\
  (forall cfg1 cfg2 f file content listing sn T,
     parse_results_file_b file = inr (Some (sn, T)) ->
     dt_le T (cutoff_date cfg1) = false -> dt_le T (cutoff_date cfg2) = false ->
     check_firmware_version (excluded_firmware cfg1) content = false ->
     check_firmware_version (excluded_firmware cfg2) content = false ->
     admit_b cfg1 f file content listing = admit_b cfg2 f file content listing).
Proof.
  split; [exact candidates_b_mem|].
  split; [exact candidates_b_complete|].
  split; [exact candidates_w_mem|].
  split; [exact candidates_w_complete|].
  intros cfg1 cfg2 f file content listing sn T Hp H1 H2 F1 F2.
  unfold admit_b; rewrite Hp; simpl; rewrite H1, H2, F1, F2; reflexivity.
Qed.

Lemma comparison_fixed_per_program_witness :
  In (sess_1h, T_1h) [(sess_1h, T_1h)] /\ dt_le T_1h T0 = true /\
  admit_b cfg0 empty_fs result0 content_ok [sess_1h]
    = admit_b (mkcfg (DT.mkdt 2025 7 19 0 0 0) (lit "0.0.1")) empty_fs result0 content_ok [sess_1h].
Proof.
  destruct comparison_fixed_per_program as [_ [Hc [Hs [_ Ha]]]].
  split; [|split].
  - apply (Hc dev1 T0 [sess_1h] [(sess_1h, T_1h)] sess_1h T_1h);
      [vm_compute; reflexivity | left; reflexivity | vm_compute; reflexivity
      | vm_compute; reflexivity | vm_compute; reflexivity].
  - assert (Hcw : candidates_w dev1 T0 [sess_1h] = inr [(sess_1h, T_1h)])
      by (vm_compute; reflexivity).
    exact (proj2 (proj2 (Hs dev1 T0 [sess_1h] [(sess_1h, T_1h)] sess_1h T_1h Hcw
                            (or_introl eq_refl)))).
  - apply (Ha _ _ empty_fs result0 content_ok [sess_1h] dev1 T0); vm_compute; reflexivity.
Defined.

(** C8 (divergence): the sniffer is total and fails open: an unreadable
    file, an empty one, a malformed first row, or data rows all of at most
    three cells give "not excluded".  But it does not stop at the first data
    row, as its comment says: the [break] sits inside the width test, so a
    short first data row is passed over and a later row decides.  A file
    whose first data row has no attribute is then excluded on the strength
    of its second row. *)
Theorem sniffer_reads_past_short_first_row :
  (forall x, check_firmware_version x None = false) /\
  (forall x, check_firmware_version x (Some []) = false) /\
  (forall x rest, check_firmware_version x (Some (RowError :: rest)) = false) /\
  (forall x hdr rows,
     Forall (fun it => match it with Row r => (length r <= 3)%nat | RowError => True end) rows ->
     check_firmware_version x (Some (Row hdr :: rows)) = false) /\
  first_row_attribute content_short_first_row = None /\
  check_firmware_version debug_fw content_short_first_row = true /\
  admit_b cfg0 empty_fs result0 content_short_first_row [sess_1h] = inr (SkippedFirmware, []).
Proof.
  split; [reflexivity|].
  split; [reflexivity|].
  split; [reflexivity|].
  split; [|split; [|split]; vm_compute; reflexivity].
  intros x hdr rows Hr.
  unfold check_firmware_version, check_body.
  destruct (3 <? length hdr)%nat; [|reflexivity].
  pose proof (scan_short_rows x rows Hr) as Hs.
  destruct (scan_rows x rows); [reflexivity|exact Hs].
Qed.

Lemma sniffer_reads_past_short_first_row_witness :
  check_firmware_version debug_fw (Some [Row header4; Row [dev1]; RowError]) = false.
Proof.
  destruct sniffer_reads_past_short_first_row as [_ [_ [_ [H _]]]].
  apply H.
  constructor; [simpl; lia|].
  constructor; [exact I|constructor].
Defined.

(** C9: in the batch variant a result file not yet staged or archived,
    whose parsed timestamp is at or before the cutoff date, is skipped
    before the attribute check and the matching: the outcome is the same
    whatever its content and whatever sessions exist, and nothing is
    copied.  The polling loop has no such filter: it stages the same file
    when a session lies within the window. *)
Theorem cutoff_filter_batch_only :
  (forall cfg f file content listing sn T,
     result_known f file = false ->
     parse_results_file_b file = inr (Some (sn, T)) ->
     dt_le T (cutoff_date cfg) = true ->
     admit_b cfg f file content listing = inr (SkippedDate, [])) /\
  match_b dev1 T0 [sess_1h] = inr (Selected sess_1h) /\
  admit_b cfg_late empty_fs result0 content_ok [sess_1h] = inr (SkippedDate, []) /\
  admit_w empty_fs result0 [sess_1h]
    = inr (StagedBoth sess_1h, [CopyTest sess_1h; CopyResult result0]).
Proof.
  split; [|split; [|split]; vm_compute; reflexivity].
  intros cfg f file content listing sn T Hk Hp Hc.
  unfold admit_b; rewrite Hk, Hp; simpl; rewrite Hc; reflexivity.
Qed.

Lemma cutoff_filter_batch_only_witness :
  admit_b cfg_late empty_fs result0 content_debug [sess_4d; sess_1h] = inr (SkippedDate, []).
Proof.
  destruct cutoff_filter_batch_only as [H _].
  apply (H cfg_late empty_fs result0 content_debug [sess_4d; sess_1h] dev1 T0);
    vm_compute; reflexivity.
Defined.

(** C10: the attribute check first looks at the header row: with three
    columns or fewer it answers "not excluded" without reading any data
    row, so the batch variant never skips such a file for its firmware,
    even when its first data row carries the excluded value in column 3;
    such a file is staged when a session matches. *)
Theorem narrow_header_not_excluded :
  (forall x hdr rest, (length hdr <= 3)%nat ->
     check_firmware_version x (Some (Row hdr :: rest)) = false) /\
  (forall cfg f file hdr rest listing ops, (length hdr <= 3)%nat ->
     admit_b cfg f file (Some (Row hdr :: rest)) listing <> inr (SkippedFirmware, ops)) /\
  first_row_attribute content_debug_narrow_header = Some (excluded_firmware cfg0) /\
  admit_b cfg0 empty_fs result0 content_debug_narrow_header [sess_1h]
    = inr (StagedBoth sess_1h, [CopyTest sess_1h; CopyResult result0]).
Proof.
  split; [intros x hdr rest; exact (check_narrow_header x hdr rest)|].
  split; [|split; vm_compute; reflexivity].
  intros cfg f file hdr rest listing ops Hh H.
  unfold admit_b in H.
  destruct (result_known f file); [discriminate|].
  destruct (parse_results_file_b file) as [e|[[sn T]|]]; simpl in H; try discriminate.
  destruct (dt_le T (cutoff_date cfg)); [discriminate|].
  rewrite (check_narrow_header _ _ rest Hh) in H.
  destruct (match_b sn T listing) as [e|s]; simpl in H; [discriminate|].
  injection H as H.
  apply (after_match_not_firmware f file s); rewrite H; reflexivity.
Qed.

Lemma narrow_header_not_excluded_witness :
  admit_b cfg0 empty_fs result0 content_debug_narrow_header [] <> inr (SkippedFirmware, []).
Proof.
  destruct narrow_header_not_excluded as [_ [H _]].
  apply H; simpl; lia.
Defined.

(** *** C5 *)

(** C5 (counterexample): the batch variant does not accept both
    resolutions. Its result parser rejects the seconds-absent name of DEV1
    at 2025-07-20 10:00, and its session parser rejects the seconds-present
    session name of the same device and time. *)
Lemma dual_resolution_cex :
  parse_results_file_b (result_name_hm dev1 T0) = inr None /\
  parse_test_file_b (test_name_hms dev1 T0) = inr None.
Proof. split; vm_compute; reflexivity. Qed.

(** C5 (amended): for a non-empty device id without '_', '/' or a newline
    and a valid timestamp, the polling loop's result and session parsers
    accept both the seconds-present and the seconds-absent name. They
    return the device id and the timestamp, with seconds 0 for the
    seconds-absent form. The batch result parser accepts only the
    seconds-present form, and the batch session parser accepts only the
    seconds-absent form. *)
Lemma dual_resolution_per_variant sn t :
  good_sn sn = true -> valid_dt t = true ->
  (parse_results_file_w (result_name_hms sn t) = inr (Some (sn, t)) /\
   parse_results_file_w (result_name_hm sn t) = inr (Some (sn, with_second t 0)) /\
   parse_test_file_w (test_name_hms sn t) = inr (Some (sn, t)) /\
   parse_test_file_w (test_name_hm sn t) = inr (Some (sn, with_second t 0))) /\
  (parse_results_file_b (result_name_hms sn t) = inr (Some (sn, t)) /\
   parse_results_file_b (result_name_hm sn t) = inr None /\
   parse_test_file_b (test_name_hm sn t) = inr (Some (sn, with_second t 0)) /\
   parse_test_file_b (test_name_hms sn t) = inr None).
Proof.
  intros Hg Hv.
  destruct (codec_facts sn t Hg Hv) as (A1 & A2 & A3 & A4 & B1 & B2 & B3 & B4).
  repeat split; assumption.
Qed.

Lemma dual_resolution_per_variant_witness :
  good_sn dev1 = true /\ valid_dt T0 = true /\
  parse_test_file_w (test_name_hm dev1 T0) = inr (Some (dev1, with_second T0 0)) /\
  parse_test_file_b (test_name_hms dev1 T0) = inr None.
Proof.
  split; [reflexivity|]. split; [reflexivity|].
  destruct (dual_resolution_per_variant dev1 T0 eq_refl eq_refl) as [[_ [_ [_ W]]] [_ [_ [_ B]]]].
  split; [exact W | exact B].
Defined.

(** *** C6 *)

(** C6 (counterexample): the round trip fails for a device id containing
    '_': neither result parser gives back ["A_B"]. And the seconds-absent
    name of a time with 30 seconds parses to that time with seconds 0. *)
Lemma roundtrip_any_device_cex :
  parse_results_file_w (result_name_hms (lit "A_B") T0) <> inr (Some (lit "A_B", T0)) /\
  parse_results_file_b (result_name_hms (lit "A_B") T0) <> inr (Some (lit "A_B", T0)) /\
  parse_results_file_w (result_name_hm dev1 (mkdt 2025 7 20 10 0 30))
    = inr (Some (dev1, mkdt 2025 7 20 10 0 0)).
Proof.
  split; [|split].
  - vm_compute; discriminate.
  - vm_compute; discriminate.
  - vm_compute; reflexivity.
Qed.

(** C6 (amended): for a non-empty device id without '_', '/' or a newline
    and a valid timestamp, both result parsers give back exactly the device
    id and the timestamp from the seconds-present name. The polling loop's
    parser gives back the device id and the timestamp with its seconds set
    to 0 from the seconds-absent name, which the batch parser rejects. *)
Lemma result_name_roundtrip sn t :
  good_sn sn = true -> valid_dt t = true ->
  parse_results_file_w (result_name_hms sn t) = inr (Some (sn, t)) /\
  parse_results_file_b (result_name_hms sn t) = inr (Some (sn, t)) /\
  parse_results_file_w (result_name_hm sn t) = inr (Some (sn, with_second t 0)) /\
  parse_results_file_b (result_name_hm sn t) = inr None.
Proof.
  intros Hg Hv.
  destruct (codec_facts sn t Hg Hv) as (A1 & A2 & _ & _ & B1 & B2 & _ & _).
  repeat split; assumption.
Qed.

Lemma result_name_roundtrip_witness :
  good_sn (lit "SN-42.a") = true /\ valid_dt (mkdt 2024 2 29 23 59 59) = true /\
  parse_results_file_b (result_name_hms (lit "SN-42.a") (mkdt 2024 2 29 23 59 59))
    = inr (Some (lit "SN-42.a", mkdt 2024 2 29 23 59 59)).
Proof.
  split; [reflexivity|]. split; [reflexivity|].
  destruct (result_name_roundtrip (lit "SN-42.a") (mkdt 2024 2 29 23 59 59) eq_refl eq_refl)
    as [_ [B _]].
  exact B.
Defined.

(** ** Further properties *)

(** X1. After a batch run that raised nothing, a second run over the same
    listings copies nothing and raises nothing, on any file system that
    still knows every results file the first run left known (whether
    staged in to_process/results or archived in processed/results). *)
Theorem main_b_rerun_copies_nothing cfg f results listing f1 ops :
  main_b cfg f results listing = (f1, ops, None) ->
  forall g, knows f1 g -> main_b cfg g results listing = (g, [], None).
Proof. apply main_b_idem. Qed.

Lemma main_b_rerun_copies_nothing_witness :
  main_b cfg0 empty_fs [(result0, content_ok)] [sess_1h]
    = (fs_staged0, [CopyTest sess_1h; CopyResult result0], None) /\
  main_b cfg0 fs_staged0 [(result0, content_ok)] [sess_1h] = (fs_staged0, [], None).
Proof.
  split; [vm_compute; reflexivity|].
  apply (main_b_rerun_copies_nothing cfg0 empty_fs [(result0, content_ok)] [sess_1h]
           fs_staged0 [CopyTest sess_1h; CopyResult result0]).
  - vm_compute; reflexivity.
  - intros x H; exact H.
Defined.

(** X2. The same for a cycle of the polling loop: after a cycle that
    raised nothing, the next cycle over the same listings copies nothing,
    and so starts neither the cleanup nor the ingestion. *)
Theorem watchdog_rerun_copies_nothing f sources f1 ops :
  cycle_w f sources = (f1, ops, None) ->
  forall g, knows f1 g ->
  cycle_w g sources = (g, [], None) /\ watchdog_cycle g sources = (g, [], []).
Proof.
  intros H g Hg.
  pose proof (cycle_w_idem sources f f1 ops H g Hg) as E.
  split; [exact E|].
  unfold watchdog_cycle; pose proof (cycle_w_count_eq sources g 0) as C.
  rewrite E in C; rewrite C; reflexivity.
Qed.

Lemma watchdog_rerun_copies_nothing_witness :
  cycle_w empty_fs [(Some [result0], Some [sess_1h])]
    = (fs_staged0, [CopyTest sess_1h; CopyResult result0], None) /\
  watchdog_cycle fs_staged0 [(Some [result0], Some [sess_1h])] = (fs_staged0, [], []).
Proof.
  split; [vm_compute; reflexivity|].
  apply (watchdog_rerun_copies_nothing empty_fs [(Some [result0], Some [sess_1h])]
           fs_staged0 [CopyTest sess_1h; CopyResult result0]).
  - vm_compute; reflexivity.
  - intros x H; exact H.
Defined.

(** X5. When the batch script stages a results file with the session [t],
    the file was not known, its name parses to a device and a time [T]
    after the cutoff, the sniffer did not exclude it, and [t] is a [.csv]
    session of the listing for the same device, strictly before [T], at
    most three days before [T], and no earlier than any other such
    session of the listing. *)
Theorem batch_staged_file_facts cfg f file content listing d ops t :
  admit_b cfg f file content listing = inr (d, ops) ->
  (d = StagedBoth t \/ d = StagedResultOnly t) ->
  result_known f file = false /\
  exists sn T S_,
    parse_results_file_b file = inr (Some (sn, T)) /\
    dt_le T (cutoff_date cfg) = false /\
    check_firmware_version (excluded_firmware cfg) content = false /\
    In t listing /\ endswith (lit ".csv") t = true /\
    parse_test_file_b t = inr (Some (sn, S_)) /\ dt_lt S_ T = true /\
    (dt_key T - 3 * 86400 <= dt_key S_)%Z /\
    forall t' S', In t' listing -> endswith (lit ".csv") t' = true ->
      parse_test_file_b t' = inr (Some (sn, S')) -> dt_lt S' T = true ->
      (dt_key S' <= dt_key S_)%Z.
Proof.
  intros H Hd.
  destruct (admit_b_staged_facts cfg f file content listing d ops t H Hd)
    as [Hk (sn & T & Hp & Hc & Hf & Hm)].
  destruct (match_b_selected sn T listing t Hm) as (S_ & A & B & C & D & E & G).
  split; [exact Hk|exists sn, T, S_; repeat split; auto].
Qed.

Lemma batch_staged_file_facts_witness :
  admit_b cfg0 empty_fs result0 content_ok [sess_1h]
    = inr (StagedBoth sess_1h, [CopyTest sess_1h; CopyResult result0]) /\
  result_known empty_fs result0 = false.
Proof.
  split; [vm_compute; reflexivity|].
  exact (proj1 (batch_staged_file_facts cfg0 empty_fs result0 content_ok [sess_1h]
           (StagedBoth sess_1h) [CopyTest sess_1h; CopyResult result0] sess_1h
           ltac:(vm_compute; reflexivity) (or_introl eq_refl))).
Defined.

(** X6. When the polling loop stages a results file with the session [t],
    the file was not known, its name parses to a device and a time [T],
    and [t] is a session of the listing for the same device, at or before
    [T], at most three days before [T], and no earlier than any other such
    session of the listing. *)
Theorem watchdog_staged_file_facts f file listing d ops t :
  admit_w f file listing = inr (d, ops) ->
  (d = StagedBoth t \/ d = StagedResultOnly t) ->
  result_known f file = false /\
  exists sn T S_,
    parse_results_file_w file = inr (Some (sn, T)) /\
    In t listing /\ parse_test_file_w t = inr (Some (sn, S_)) /\ dt_le S_ T = true /\
    (dt_key T - 3 * 86400 <= dt_key S_)%Z /\
    forall t' S', In t' listing ->
      parse_test_file_w t' = inr (Some (sn, S')) -> dt_le S' T = true ->
      (dt_key S' <= dt_key S_)%Z.
Proof.
  intros H Hd.
  destruct (admit_w_staged_facts f file listing d ops t H Hd) as [Hk (sn & T & Hp & Hm)].
  destruct (match_w_selected sn T listing t Hm) as (S_ & A & C & D & E & G).
  split; [exact Hk|exists sn, T, S_; repeat split; auto].
Qed.

Lemma watchdog_staged_file_facts_witness :
  admit_w empty_fs result0 [sess_1h]
    = inr (StagedBoth sess_1h, [CopyTest sess_1h; CopyResult result0]) /\
  result_known empty_fs result0 = false.
Proof.
  split; [vm_compute; reflexivity|].
  exact (proj1 (watchdog_staged_file_facts empty_fs result0 [sess_1h]
           (StagedBoth sess_1h) [CopyTest sess_1h; CopyResult result0] sess_1h
           ltac:(vm_compute; reflexivity) (or_introl eq_refl))).
Defined.

(** X7. [max(test_candidates, key=lambda x: x[1])] returns the first
    candidate with the latest time: every candidate before it is strictly
    earlier, every one after it is no later; an empty list gives nothing
    (and [if test_candidates] keeps [max] from seeing it). *)
Theorem py_max_first_latest l :
  match py_max l with
  | None => l = []
  | Some m => exists pre post, l = pre ++ m :: post /\
      Forall (fun y => dt_key (snd y) < dt_key (snd m))%Z pre /\
      Forall (fun y => dt_key (snd y) <= dt_key (snd m))%Z post
  end.
Proof.
  destruct (py_max l) as [m|] eqn:E.
  - exact (py_max_spec l m E).
  - destruct l; [reflexivity|discriminate].
Qed.

(** X8. None of the four name parsers raises: whatever the name,
    [parts[i]] is in range whenever the pattern matched, and a bad date
    is caught as [ValueError]. *)
Theorem parsers_never_raise w :
  (exists r, parse_results_file_b w = inr r) /\ (exists r, parse_test_file_b w = inr r) /\
  (exists r, parse_results_file_w w = inr r) /\ (exists r, parse_test_file_w w = inr r).
Proof.
  split; [apply parse_results_file_b_total|].
  split; [apply parse_test_file_b_total|].
  split; [apply parse_results_file_w_total|apply parse_test_file_w_total].
Qed.

(** X9. What a parser returns is a valid datetime and a device id without
    [_]. *)
Theorem parsed_names_valid w sn T :
  (parse_results_file_b w = inr (Some (sn, T)) \/ parse_test_file_b w = inr (Some (sn, T)) \/
   parse_results_file_w w = inr (Some (sn, T)) \/ parse_test_file_w w = inr (Some (sn, T))) ->
  valid_dt T = true /\ no_char "_" sn = true.
Proof.
  intros [H|[H|[H|H]]];
    [apply parse_results_file_b_some with w | apply parse_test_file_b_some with w
    | apply parse_results_file_w_some with w | apply parse_test_file_w_some with w]; exact H.
Qed.

Lemma parsed_names_valid_witness :
  parse_results_file_b result0 = inr (Some (dev1, T0)) /\ valid_dt T0 = true.
Proof.
  assert (H : parse_results_file_b result0 = inr (Some (dev1, T0))) by (vm_compute; reflexivity).
  split; [exact H|].
  exact (proj1 (parsed_names_valid result0 dev1 T0 (or_introl H))).
Defined.

(** X10. [CUTOFF_DATE] reads back the date of any valid datetime written
    as [YYYY-MM-DD], at midnight. *)
Theorem cutoff_date_roundtrip t :
  valid_dt t = true -> CUTOFF_DATE (date_field t) = Some (midnight t).
Proof. apply CUTOFF_DATE_ok. Qed.

Lemma cutoff_date_roundtrip_witness :
  valid_dt T0 = true /\ CUTOFF_DATE (date_field T0) = Some (mkdt 2025 7 20 0 0 0).
Proof.
  split; [reflexivity|].
  exact (cutoff_date_roundtrip T0 eq_refl).
Defined.

(** X13. A cycle of the polling loop starts the cleanup and then the
    ingestion exactly when it raised nothing and copied at least one
    results file; the copies it made are those of [cycle_w], whether or not
    it raised. *)
Theorem watchdog_cycle_actions f sources :
  watchdog_cycle f sources =
  let '(f1, ops, e) := cycle_w f sources in
  (f1, ops, match e with
            | None => if (0 <? result_copies ops)%nat then [RunCleanup; RunIngestion] else []
            | Some _ => []
            end).
Proof.
  unfold watchdog_cycle; pose proof (cycle_w_count_eq sources f 0) as C.
  destruct (cycle_w f sources) as [[f1 ops] e]; rewrite C; destruct e; reflexivity.
Qed.

(** X14. The batch summary is printed exactly when the loop raised
    nothing; then "Files copied" is the number of results files copied,
    and the four counters add up to at most "Total files checked", the
    number of [.csv] names of the listing. *)
Theorem main_b_summary_counts cfg f results listing :
  match main_b cfg f results listing, main_b_summary cfg f results listing with
  | (_, _, Some _), None => True
  | (_, ops, None), Some (total, c) =>
      files_copied c = result_copies ops /\
      total = length (filter (fun it => endswith (lit ".csv") (fst it)) results) /\
      (files_copied c + files_skipped_date c + files_skipped_firmware c + files_already_exist c
         <= total)%nat
  | _, _ => False
  end.
Proof.
  unfold main_b, main_b_summary.
  pose proof (run_items_tally_eq (process_b cfg listing) count_b results f (mkcounters 0 0 0 0)) as E.
  pose proof (run_items_tally_b cfg listing results f (mkcounters 0 0 0 0)) as B.
  destruct (run_items_tally (process_b cfg listing) count_b f results (mkcounters 0 0 0 0))
    as [[[f1 ops] c] e].
  rewrite E; destruct e as [x|]; [exact I|].
  destruct B as [B1 B2]; unfold tallied in B2; cbn in B1, B2.
  split; [exact B1|split; [reflexivity|exact B2]].
Qed.

(** X15. Over a batch run, and over any number of cycles of the polling
    loop, a results file is copied into to_process/results at most once,
    never when it was already in to_process/results or processed/results,
    and once copied it stays there. *)
Theorem results_file_copied_at_most_once cfg f results listing cycles x :
  rbound x f (fst (fst (main_b cfg f results listing))) (snd (fst (main_b cfg f results listing))) /\
  rbound x f (fst (run_w f cycles)) (snd (run_w f cycles)).
Proof.
  split; [|apply run_w_rbound].
  unfold main_b; apply run_items_rbound; apply process_b_result_step.
Qed.

(** X16. The sniffer excludes a file exactly when it opens, its header row
    has more than three fields, and the first data row with more than three
    fields comes after rows that all read without error, and has column 3,
    stripped, equal to the excluded version. *)
Theorem check_firmware_version_true_iff excluded content :
  check_firmware_version excluded content = true <->
  exists headers rows, content = Some (Row headers :: rows) /\ (3 < length headers)%nat /\
    exists pre row rest, rows = pre ++ Row row :: rest /\ Forall short_row pre /\
      (3 < length row)%nat /\ strip (nth 3 row []) = excluded.
Proof.
  unfold check_firmware_version, check_body.
  destruct content as [[|[headers|] rows]|].
  - split; [discriminate|intros (h & r & E & _); discriminate].
  - destruct (3 <? length headers)%nat eqn:L.
    + apply Nat.ltb_lt in L.
      destruct (scan_rows excluded rows) as [e|b] eqn:Es.
      * split; [discriminate|].
        intros (h & r & E & _ & H); injection E as <- <-; apply scan_rows_true in H; congruence.
      * split.
        -- intros ->; exists headers, rows; split; [reflexivity|split; [exact L|]].
           apply scan_rows_true; exact Es.
        -- intros (h & r & E & _ & H); injection E as <- <-; apply scan_rows_true in H; congruence.
    + apply Nat.ltb_ge in L.
      split; [discriminate|intros (h & r & E & Lh & _); injection E as <- <-; lia].
  - split; [discriminate|intros (h & r & E & _); discriminate].
  - split; [discriminate|intros (h & r & E & _); discriminate].
Qed.

Lemma check_firmware_version_true_iff_witness :
  check_firmware_version debug_fw content_debug = true.
Proof.
  apply (proj2 (check_firmware_version_true_iff debug_fw content_debug)).
  exists header4, [Row [dev1; lit "2025-07-20"; lit "PASS"; lit " 9.9.9-debug "]].
  split; [reflexivity|split; [vm_compute; reflexivity|]].
  exists [], [dev1; lit "2025-07-20"; lit "PASS"; lit " 9.9.9-debug "], [].
  split; [reflexivity|split; [constructor|split; [vm_compute; reflexivity|vm_compute; reflexivity]]].
Defined.
